(** * GameController (dynamodb/gameController.py): a shallow embedding

    The controller keeps one item per game in the "Games" table and changes
    it through conditional writes.  The embedding follows the Python source
    function by function:

    - Python values that may be [None] are [option string];
    - a boto [Item] is the finite map of its attributes, [item[k]] being the
      lookup (boto answers [None] for an attribute that is absent);
    - exceptions are a sum type, a call returns [Return v] or [Raise e];
    - the connection manager carries the table, the failure the service
      currently answers with (if any) and the log of the requests sent;
    - [str(datetime.now())] is the argument [now]. *)

From Stdlib Require Import ZArith String Ascii List Bool Lia.
From stdpp Require Import base option gmap strings list fin_maps.

Open Scope string_scope.
Open Scope Z_scope.

(** ** Python values and exceptions *)

(** A Python string or [None]. *)
Abbreviation pyval := (option string) (only parsing).

(** The exceptions the controller can meet.  [JSONResponseError] carries
    [body.get('__type')]; in boto [ConditionalCheckFailedException] and
    [ValidationException] derive from [JSONResponseError], and
    [KeyboardInterrupt] does not derive from [Exception]. *)
Inductive exn : Type :=
| StopIteration
| IndexError
| AttributeError
| IOError
| KeyboardInterrupt
| ItemNotFound
| JSONResponseError (type__ : pyval)
| ConditionalCheckFailedException
| ValidationException.

#[global] Instance exn_eq_dec : EqDecision exn.
Proof. solve_decision. Defined.

Definition isinstance_JSONResponseError (e : exn) : bool :=
  match e with
  | JSONResponseError _ | ConditionalCheckFailedException
  | ValidationException => true
  | _ => false
  end.

Definition isinstance_Exception (e : exn) : bool :=
  match e with
  | KeyboardInterrupt => false
  | _ => true
  end.

Inductive outcome (A : Type) : Type :=
| Return (a : A)
| Raise (e : exn).
Arguments Return {A} a.
Arguments Raise {A} e.

(** ** Items and the table *)

(** [str.split(sep)] for a one-character separator. *)
Fixpoint split (sep : ascii) (s : string) : list string :=
  match s with
  | EmptyString => [EmptyString]
  | String c s' =>
      if Ascii.eqb c sep then EmptyString :: split sep s'
      else match split sep s' with
           | [] => [String c EmptyString]
           | h :: t => String c h :: t
           end
  end.

(** The nine squares, in the order of [getBoardState]. *)
Definition squares : list string :=
  ["TopLeft"; "TopMiddle"; "TopRight"; "MiddleLeft"; "MiddleMiddle";
   "MiddleRight"; "BottomLeft"; "BottomMiddle"; "BottomRight"].

(** [item[k] = v]; an attribute set to [None] reads like an absent one. *)
Definition setitem (item : gmap string string) (k : string) (v : pyval)
  : gmap string string :=
  match v with
  | Some s => <[k := s]> item
  | None => delete k item
  end.

(** A condition of the [expected] argument of the low-level API. *)
Inductive Expectation : Type :=
| BeginsWith (p : string)   (* ComparisonOperator BEGINS_WITH *)
| Value (v : string)        (* {"Value": {"S": v}} *)
| Exists (b : bool).        (* {"Exists": b} *)

(** BEGINS_WITH fails on an attribute that is absent. *)
Definition begins_with (v : pyval) (p : string) : bool :=
  match v with
  | Some s => String.prefix p s
  | None => false
  end.

Definition holds (stored : gmap string string) (attr : string)
  (c : Expectation) : bool :=
  match c with
  | BeginsWith p => begins_with (stored !! attr) p
  | Value v => bool_decide (stored !! attr = Some v)
  | Exists b => Bool.eqb (bool_decide (is_Some (stored !! attr))) b
  end.

(** All conditions of [expected] are combined with AND. *)
Definition check (stored : gmap string string)
  (expected : gmap string Expectation) : bool :=
  forallb (fun kc => holds stored kc.1 kc.2) (map_to_list expected).

(** The requests the controller sends to the service. *)
Inductive Call : Type :=
| PutItem (item : gmap string string)
| UpdateItem (key : pyval)
| DeleteItem (key : pyval)
| GetItem (key : string)
| Query (index user status : string).

(** The connection manager [self.cm]: the "Games" table keyed by GameId,
    the failure the service answers every request with (none when it is
    reachable), and the requests sent so far, latest first. *)
Record ConnectionManager : Type := {
  Games : gmap string (gmap string string);
  failure : option exn;
  calls : list Call
}.

Definition sent (c : Call) (cm : ConnectionManager) : ConnectionManager :=
  {| Games := Games cm; failure := failure cm; calls := c :: calls cm |}.

Definition with_games (t : gmap string (gmap string string))
  (cm : ConnectionManager) : ConnectionManager :=
  {| Games := t; failure := failure cm; calls := calls cm |}.

(** ** The storage service

    boto and DynamoDB are not part of the repository; their primitives are
    modelled after the service's documented behaviour and section 6 of the
    specification. *)

(** A request is refused with [ValidationException] when it carries a
    [None] where a string is required or tries to update the key. *)
Definition valid_updates (attribute_updates : gmap string pyval) : bool :=
  forallb (fun kv => bool_decide (is_Some kv.2) && negb (String.eqb kv.1 "GameId"))
          (map_to_list attribute_updates).

(** Every update of the controller is a PUT: the new value replaces the
    old one or adds the attribute. *)
Definition put_all (attribute_updates : gmap string pyval)
  (stored : gmap string string) : gmap string string :=
  omap id attribute_updates ∪ stored.

(** [db.update_item("Games", key, attribute_updates, expected)]: an absent
    item is checked as an item without attributes. *)
Definition update_item (cm : ConnectionManager) (key : pyval)
  (attribute_updates : gmap string pyval)
  (expected : gmap string Expectation)
  : outcome unit * ConnectionManager :=
  let cm := sent (UpdateItem key) cm in
  match failure cm with
  | Some e => (Raise e, cm)
  | None =>
      match key with
      | None => (Raise ValidationException, cm)
      | Some k =>
          if valid_updates attribute_updates then
            let stored := default ∅ (Games cm !! k) in
            if check stored expected then
              let item :=
                match Games cm !! k with
                | Some old => put_all attribute_updates old
                | None => <["GameId" := k]> (put_all attribute_updates ∅)
                end in
              (Return tt, with_games (<[k := item]> (Games cm)) cm)
            else (Raise ConditionalCheckFailedException, cm)
          else (Raise ValidationException, cm)
      end
  end.

(** [db.delete_item("Games", key, expected)]. *)
Definition delete_item (cm : ConnectionManager) (key : pyval)
  (expected : gmap string Expectation)
  : outcome unit * ConnectionManager :=
  let cm := sent (DeleteItem key) cm in
  match failure cm with
  | Some e => (Raise e, cm)
  | None =>
      match key with
      | None => (Raise ValidationException, cm)
      | Some k =>
          if check (default ∅ (Games cm !! k)) expected then
            (Return tt, with_games (delete k (Games cm)) cm)
          else (Raise ConditionalCheckFailedException, cm)
      end
  end.

(** Modelled from the spec: [Item.save()] of boto, which is missing from the
    sources, on an item that was read from the table and changed, is the
    store's put primitive that persists the record unconditionally
    (sections 4.1 and 6) and answers [True]. *)
Definition Item_save (cm : ConnectionManager) (item : gmap string string)
  : outcome bool * ConnectionManager :=
  let cm := sent (PutItem item) cm in
  match failure cm with
  | Some e => (Raise e, cm)
  | None =>
      match item !! "GameId" with
      | None => (Raise ValidationException, cm)
      | Some k => (Return true, with_games (<[k := item]> (Games cm)) cm)
      end
  end.

(** Modelled from the spec: [Item.save()] of boto on an item that was just
    constructed, with no record of the table behind it, is the put-if-absent
    side of the store's put primitive (PutIfAbsentOrUnconditional, section
    6): a key already in use is a write failure (section 4.1, CreateInvite),
    which the store answers like its other refused conditional writes and
    which leaves the stored record as it is. *)
Definition Item_save_new (cm : ConnectionManager)
  (item : gmap string string) : outcome bool * ConnectionManager :=
  let cm := sent (PutItem item) cm in
  match failure cm with
  | Some e => (Raise e, cm)
  | None =>
      match item !! "GameId" with
      | None => (Raise ValidationException, cm)
      | Some k =>
          match Games cm !! k with
          | Some _ => (Raise ConditionalCheckFailedException, cm)
          | None =>
              (Return true, with_games (<[k := item]> (Games cm)) cm)
          end
      end
  end.

(** [getGamesTable().get_item(GameId=gameId)]. *)
Definition get_item (cm : ConnectionManager) (gameId : string)
  : outcome (gmap string string) * ConnectionManager :=
  let cm := sent (GetItem gameId) cm in
  match failure cm with
  | Some e => (Raise e, cm)
  | None =>
      match Games cm !! gameId with
      | None => (Raise ItemNotFound, cm)
      | Some item => (Return item, cm)
      end
  end.

(** ** State transitions *)

(** [createNewGame(gameId, creator, invitee)], source lines 31-51. *)
Definition createNewGame (cm : ConnectionManager)
  (gameId creator invitee now : string)
  : outcome bool * ConnectionManager :=
  let statusDate := "PENDING_" +:+ now in
  let item : gmap string string :=
    <["OpponentId" := invitee]>
      (<["Turn" := invitee]>
         (<["OUser" := creator]>
            (<["StatusDate" := statusDate]>
               (<["HostId" := creator]>
                  (<["GameId" := gameId]> ∅))))) in
  Item_save_new cm item.

(** [getGame(gameId)], source lines 59-72. *)
Definition getGame (cm : ConnectionManager) (gameId : string)
  : outcome (option (gmap string string)) * ConnectionManager :=
  match get_item cm gameId with
  | (Return item, cm') => (Return (Some item), cm')
  | (Raise e, cm') =>
      if bool_decide (e = ItemNotFound) then (Return None, cm')
      else if isinstance_JSONResponseError e then (Return None, cm')
      else (Raise e, cm')
  end.

(** [acceptGameInvite(game)], source lines 74-101. *)
Definition acceptGameInvite (cm : ConnectionManager)
  (game : gmap string string) (now : string)
  : outcome bool * ConnectionManager :=
  let date := now in
  let status := "IN_PROGRESS_" in
  let statusDate := status +:+ date in
  let key := game !! "GameId" in
  let attributeUpdates : gmap string pyval :=
    <["StatusDate" := Some statusDate]> ∅ in
  let expectations : gmap string Expectation :=
    <["StatusDate" := BeginsWith "PENDING_"]> ∅ in
  match update_item cm key attributeUpdates expectations with
  | (Return _, cm') => (Return true, cm')
  | (Raise e, cm') =>
      if bool_decide (e = ConditionalCheckFailedException)
      then (Return false, cm')
      else (Raise e, cm')
  end.

(** [rejectGameInvite(game)], source lines 103-123. *)
Definition rejectGameInvite (cm : ConnectionManager)
  (game : gmap string string)
  : outcome bool * ConnectionManager :=
  let key := game !! "GameId" in
  let expectation : gmap string Expectation :=
    <["StatusDate" := BeginsWith "PENDING_"]> ∅ in
  match delete_item cm key expectation with
  | (Return _, cm') => (Return true, cm')
  | (Raise e, cm') =>
      if isinstance_Exception e then (Return false, cm')
      else (Raise e, cm')
  end.

(** [updateBoardAndTurn(item, position, current_player)], source lines
    158-214.  The preamble reads the snapshot [item]; the conditions are
    checked by the service on the stored item. *)
Definition updateBoardAndTurn (cm : ConnectionManager)
  (item : gmap string string) (position current_player : string)
  : outcome bool * ConnectionManager :=
  let player_one := item !! "HostId" in
  let player_two := item !! "OpponentId" in
  let gameId := item !! "GameId" in
  match item !! "StatusDate" with
  | None => (Raise AttributeError, cm)
  | Some statusDate =>
      match split "_" statusDate !! 1%nat with
      | None => (Raise IndexError, cm)
      | Some date =>
          let representation :=
            if bool_decide (item !! "OUser" = Some current_player)
            then "O" else "X" in
          let next_player :=
            if bool_decide (Some current_player = player_one)
            then player_two else player_one in
          let key := gameId in
          let attributeUpdates : gmap string pyval :=
            <["Turn" := next_player]>
              (<[position := Some representation]> ∅) in
          let expectations : gmap string Expectation :=
            <[position := Exists false]>
              (<["Turn" := Value current_player]>
                 (<["StatusDate" := BeginsWith "IN_PROGRESS_"]> ∅)) in
          match update_item cm key attributeUpdates expectations with
          | (Return _, cm') => (Return true, cm')
          | (Raise e, cm') =>
              if bool_decide (e = ConditionalCheckFailedException)
              then (Return false, cm')
              else (Raise e, cm')
          end
      end
  end.

(** [getBoardState(item)], source lines 217-232: the loop over the
    squares, appending to [state]. *)
Fixpoint boardLoop (rest : list string) (item : gmap string string)
  (state : list string) : list string :=
  match rest with
  | [] => state
  | square :: rest' =>
      let value := item !! square in
      match value with
      | None => boardLoop rest' item (state ++ [" "])%list
      | Some v => boardLoop rest' item (state ++ [v])%list
      end
  end.

Definition getBoardState (item : gmap string string) : list string :=
  boardLoop squares item [].

(** [changeGameToFinishedState(item, result, current_user)], source lines
    271-298.  The item is changed in place, so it is returned as well. *)
Definition changeGameToFinishedState (cm : ConnectionManager)
  (item : gmap string string) (result : pyval) (current_user now : string)
  : outcome bool * gmap string string * ConnectionManager :=
  if bool_decide (item !! "Result" ≠ None) then (Return true, item, cm)
  else
    let date := now in
    let status := "FINISHED" in
    let item := setitem item "StatusDate" (Some (status +:+ "_" +:+ date)) in
    let item := setitem item "Turn" (Some "N/A") in
    let item :=
      if bool_decide (result = Some "Tie") then
        setitem item "Result" result
      else if bool_decide (result = Some "Win") then
        setitem item "Result" (Some current_user)
      else if bool_decide (item !! "HostId" = Some current_user) then
        setitem item "Result" (item !! "OpponentId")
      else
        setitem item "Result" (item !! "HostId") in
    let '(r, cm') := Item_save cm item in
    (r, item, cm').

(** ** Recency merge *)

(** A result set of a query, consumed with [next]: the rows still to come
    and the exception that ends it ([StopIteration] when [broken] is
    [None]: the rows are exhausted). *)
Record ResultSet : Type := {
  rows : list (gmap string string);
  broken : option exn
}.

(** The iterator over a finite sequence. *)
Definition iter (l : list (gmap string string)) : ResultSet :=
  {| rows := l; broken := None |}.

Definition next (rs : ResultSet) : outcome (gmap string string) * ResultSet :=
  match rows rs with
  | g :: l => (Return g, {| rows := l; broken := broken rs |})
  | [] => (Raise (default StopIteration (broken rs)), rs)
  end.

(** Python 2 orders [None] below every string; strings are compared
    lexicographically. *)
Definition pyval_gt (a b : pyval) : bool :=
  match a, b with
  | None, _ => false
  | Some _, None => true
  | Some x, Some y => String.ltb y x
  end.

(** Modelled from the spec: the ordering of boto's [Item] objects, which is
    missing from the sources, compares the two records by [StatusDate] using
    string comparison (section 4.2). *)
Definition Item_gt (a b : gmap string string) : bool :=
  pyval_gt (a !! "StatusDate") (b !! "StatusDate").

Definition len (games : list (gmap string string)) : Z :=
  Z.of_nat (length games).

(** [for rest in it: if len(games) == limit: break else: games.append(rest)]
    followed by [return games]. *)
Fixpoint drain (limit : Z) (rest : list (gmap string string))
  (broken : option exn) (games : list (gmap string string))
  : outcome (list (gmap string string)) :=
  match rest with
  | [] =>
      match broken with
      | None | Some StopIteration => Return games
      | Some e => Raise e
      end
  | r :: rest' =>
      if len games =? limit then Return games
      else drain limit rest' broken (games ++ [r])%list
  end.

(** [if game == None: game = next(it)]: the pending head of a stream,
    pulled from the iterator when none is held. *)
Definition refill (game : option (gmap string string)) (it : ResultSet)
  : outcome (gmap string string * ResultSet) :=
  match game with
  | Some g => Return (g, it)
  | None =>
      match next it with
      | (Return g, it') => Return (g, it')
      | (Raise e, _) => Raise e
      end
  end.

(** The [while] loop of [mergeQueries], one iteration per unit of fuel;
    [None] when the fuel runs out before the loop ends. *)
Fixpoint mergeLoop (fuel : nat) (limit : Z) (host opp : ResultSet)
  (games : list (gmap string string))
  (game_one game_two : option (gmap string string))
  : option (outcome (list (gmap string string))) :=
  match fuel with
  | O => None
  | S fuel' =>
      if len games <=? limit then
        match refill game_one host with
        | Raise StopIteration =>
            let games :=
              match game_two with
              | Some g2 => (games ++ [g2])%list
              | None => games
              end in
            Some (drain limit (rows opp) (broken opp) games)
        | Raise e => Some (Raise e)
        | Return (g1, host') =>
            match refill game_two opp with
            | Raise StopIteration =>
                Some (drain limit (rows host') (broken host')
                        (games ++ [g1])%list)
            | Raise e => Some (Raise e)
            | Return (g2, opp') =>
                if Item_gt g1 g2 then
                  mergeLoop fuel' limit host' opp' (games ++ [g1])%list
                            None (Some g2)
                else
                  mergeLoop fuel' limit host' opp' (games ++ [g2])%list
                            (Some g1) None
            end
        end
      else Some (Return games)
  end.

(** [mergeQueries(host, opp, limit=10)], source lines 300-345.  Every
    iteration that does not return appends one game, so the loop is entered
    at most [limit + 1] times and its condition is tested once more (see
    [mergeQueries_returns]). *)
Definition mergeQueries (host opp : ResultSet) (limit : Z)
  : option (outcome (list (gmap string string))) :=
  mergeLoop (S (Z.to_nat (limit + 1))) limit host opp [] None None.

(** ** Query assembly *)

Section QueryAssembly.

(** The rows a query on an index of the table answers with (the [Query]
    primitive of the store): table, index, user, status prefix, limit. *)
Variable select :
  gmap string (gmap string string) -> string -> string -> string -> Z ->
  list (gmap string string).

(** [getGamesTable().query(<user attribute>__eq=user,
    StatusDate__beginswith=status, index=index, limit=limit)]. *)
Definition query (cm : ConnectionManager) (index user status : string)
  (limit : Z) : ResultSet * ConnectionManager :=
  let cm := sent (Query index user status) cm in
  match failure cm with
  | Some e => ({| rows := []; broken := Some e |}, cm)
  | None => (iter (select (Games cm) index user status limit), cm)
  end.

Definition ResourceNotFound : string :=
  "com.amazonaws.dynamodb.v20120810#ResourceNotFoundException".

(** The [for i in range(10)] loop of [getGameInvites]. *)
Fixpoint collectInvites (n : nat) (gameInvitesIndex : ResultSet)
  (invites : list (gmap string string))
  : outcome (option (list (gmap string string))) :=
  match n with
  | O => Return (Some invites)
  | S n' =>
      match next gameInvitesIndex with
      | (Return gameInvite, rs') =>
          collectInvites n' rs' (invites ++ [gameInvite])%list
      | (Raise StopIteration, _) => Return (Some invites)
      | (Raise ValidationException, _) => Return (Some invites)
      | (Raise (JSONResponseError type__), _) =>
          if bool_decide (type__ = Some ResourceNotFound) then Return None
          else Raise (JSONResponseError type__)
      | (Raise e, _) => Raise e
      end
  end.

(** [getGameInvites(user)], source lines 125-156; the answer is a list
    or [None]. *)
Definition getGameInvites (cm : ConnectionManager) (user : pyval)
  : outcome (option (list (gmap string string))) * ConnectionManager :=
  let invites : list (gmap string string) := [] in
  match user with
  | None => (Return (Some invites), cm)
  | Some user =>
      let '(gameInvitesIndex, cm') :=
        query cm "OpponentId-StatusDate-index" user "PENDING_" 10 in
      (collectInvites 10 gameInvitesIndex invites, cm')
  end.

(** [getGamesWithStatus(user, status)], source lines 347-369. *)
Definition getGamesWithStatus (cm : ConnectionManager) (user : pyval)
  (status : string)
  : option (outcome (list (gmap string string))) * ConnectionManager :=
  match user with
  | None => (Some (Return []), cm)
  | Some user =>
      let '(hostGamesInProgress, cm1) :=
        query cm "HostId-StatusDate-index" user status 10 in
      let '(oppGamesInProgress, cm2) :=
        query cm1 "OpponentId-StatusDate-index" user status 10 in
      let games := mergeQueries hostGamesInProgress oppGamesInProgress 10 in
      (games, cm2)
  end.

End QueryAssembly.

(** ** Predicates used in the statements *)

(** The three conditions of a move, on the stored record. *)
Definition move_guard (stored : gmap string string)
  (position current_player : string) : Prop :=
  begins_with (stored !! "StatusDate") "IN_PROGRESS_" = true /\
  stored !! "Turn" = Some current_player /\
  stored !! position = None.

(** A game record of the data model: it has its key, both players, and a
    StatusDate made of a phase, an underscore and a time. *)
Definition game_record (item : gmap string string) : Prop :=
  is_Some (item !! "GameId") /\
  is_Some (item !! "HostId") /\
  is_Some (item !! "OpponentId") /\
  exists phase date : string,
    item !! "StatusDate" = Some (phase +:+ "_" +:+ date).

(** The mark and the next player, as the preamble of [updateBoardAndTurn]
    computes them from the item it is given. *)
Definition mark_of (item : gmap string string) (current_player : string)
  : string :=
  if bool_decide (item !! "OUser" = Some current_player) then "O" else "X".

Definition next_of (item : gmap string string) (current_player : string)
  : pyval :=
  if bool_decide (Some current_player = item !! "HostId")
  then item !! "OpponentId" else item !! "HostId".

(** The play on one game after its creation: the invitation is accepted
    and squares are taken, each move made on the record just read with
    [getGame]; the index counts the successful moves. *)
Inductive played (gameId : string)
  : nat -> ConnectionManager -> ConnectionManager -> Prop :=
| played_none (cm : ConnectionManager) : played gameId 0 cm cm
| played_accept (n : nat) (cm cm1 cm2 : ConnectionManager)
    (game : gmap string string) (now : string) :
    played gameId n cm cm1 ->
    game !! "GameId" = Some gameId ->
    acceptGameInvite cm1 game now = (Return true, cm2) ->
    played gameId n cm cm2
| played_move (n : nat) (cm cm1 cm2 cm3 : ConnectionManager)
    (item : gmap string string) (position current_player : string) :
    played gameId n cm cm1 ->
    getGame cm1 gameId = (Return (Some item), cm2) ->
    In position squares ->
    updateBoardAndTurn cm2 item position current_player
      = (Return true, cm3) ->
    played gameId (S n) cm cm3.

(** The stored record of the game after [n] moves. *)
Definition turn_after (gameId creator invitee : string) (n : nat)
  (cm : ConnectionManager) : Prop :=
  exists record : gmap string string,
    Games cm !! gameId = Some record /\
    record !! "GameId" = Some gameId /\
    record !! "HostId" = Some creator /\
    record !! "OpponentId" = Some invitee /\
    record !! "Turn" = Some (if Nat.even n then invitee else creator).

(** Adjacent games in descending order of StatusDate (equal dates
    allowed): no game is greater than the one before it. *)
Fixpoint descending (games : list (gmap string string)) : bool :=
  match games with
  | g :: (g' :: _) as rest => negb (Item_gt g' g) && descending rest
  | _ => true
  end.

(** The games a stream still has to give: the head held, if any, and the
    rows of its iterator. *)
Definition pending (game : option (gmap string string)) (it : ResultSet)
  : list (gmap string string) :=
  match game with
  | Some g => g :: rows it
  | None => rows it
  end.

(** [weave out A B]: [out] interleaves a prefix of [A] and a prefix of
    [B], each in its own order. *)
Inductive weave
  : list (gmap string string) -> list (gmap string string) ->
    list (gmap string string) -> Prop :=
| weave_stop (A B : list (gmap string string)) : weave [] A B
| weave_one (g : gmap string string) (out A B : list (gmap string string)) :
    weave out A B -> weave (g :: out) (g :: A) B
| weave_two (g : gmap string string) (out A B : list (gmap string string)) :
    weave out A B -> weave (g :: out) A (g :: B).

(** Whether a character occurs in a string. *)
Fixpoint occurs (c : ascii) (s : string) : bool :=
  match s with
  | EmptyString => false
  | String c' s' => Ascii.eqb c' c || occurs c s'
  end.

(** The value [getBoardState] shows for a square. *)
Definition cell (item : gmap string string) (square : string) : string :=
  match item !! square with
  | None => " "
  | Some v => v
  end.

(** The item as [changeGameToFinishedState] leaves it when it had no
    Result: the assignments of source lines 283-296. *)
Definition finished (item : gmap string string) (result : pyval)
  (current_user now : string) : gmap string string :=
  let item := setitem item "StatusDate" (Some ("FINISHED" +:+ "_" +:+ now)) in
  let item := setitem item "Turn" (Some "N/A") in
  if bool_decide (result = Some "Tie") then
    setitem item "Result" result
  else if bool_decide (result = Some "Win") then
    setitem item "Result" (Some current_user)
  else if bool_decide (item !! "HostId" = Some current_user) then
    setitem item "Result" (item !! "OpponentId")
  else
    setitem item "Result" (item !! "HostId").

(** The number of squares of a record that are set. *)
Definition marked (record : gmap string string) : nat :=
  length (List.filter (fun square => bool_decide (is_Some (record !! square)))
            squares).

(** The stored record of a game after [n] moves of a play: its players,
    the owner of "O", whose turn it is and how many squares are set. *)
Definition play_state (gameId creator invitee : string) (n : nat)
  (cm : ConnectionManager) : Prop :=
  exists record : gmap string string,
    Games cm !! gameId = Some record /\
    record !! "GameId" = Some gameId /\
    record !! "HostId" = Some creator /\
    record !! "OpponentId" = Some invitee /\
    record !! "OUser" = Some creator /\
    record !! "Turn" = Some (if Nat.even n then invitee else creator) /\
    marked record = n.

(** ** Sample games *)

(** The game "g1" that "alice" invites "bob" to: while the invitation is
    pending, once it is accepted, and once it is finished. *)
Definition pending_game : gmap string string :=
  <["OpponentId" := "bob"]>
    (<["Turn" := "bob"]>
       (<["OUser" := "alice"]>
          (<["StatusDate" := "PENDING_2014-11-04"]>
             (<["HostId" := "alice"]> (<["GameId" := "g1"]> ∅))))).

Definition in_progress_game : gmap string string :=
  <["StatusDate" := "IN_PROGRESS_2014-11-05"]> pending_game.

Definition finished_game : gmap string string :=
  <["Result" := "alice"]>
    (<["Turn" := "N/A"]>
       (<["StatusDate" := "FINISHED_2014-11-04"]> pending_game)).

(** Connection managers: an empty table, a service that cannot be reached
    while the invitation is pending, and tables holding the game in
    progress and finished. *)
Definition empty_table : ConnectionManager :=
  {| Games := ∅; failure := None; calls := [] |}.

Definition unreachable : ConnectionManager :=
  {| Games := <["g1" := pending_game]> ∅;
     failure := Some IOError;
     calls := [] |}.

Definition playing : ConnectionManager :=
  {| Games := <["g1" := in_progress_game]> ∅; failure := None; calls := [] |}.

Definition reachable : ConnectionManager :=
  {| Games := <["g1" := finished_game]> ∅; failure := None; calls := [] |}.

(** The states a short play goes through: creation, acceptance, and the
    first move, which the invitee "bob" makes. *)
Definition after_first_move : ConnectionManager :=
  (updateBoardAndTurn playing in_progress_game "TopLeft" "bob").2.

Definition created : ConnectionManager :=
  (createNewGame empty_table "g1" "alice" "bob" "2014-11-04").2.

Definition accepted : ConnectionManager :=
  (acceptGameInvite created pending_game "2014-11-05").2.

Definition moved_once : ConnectionManager :=
  (updateBoardAndTurn (getGame accepted "g1").2 in_progress_game
     "MiddleMiddle" "bob").2.

(** A game reduced to its key and its StatusDate, for the merge. *)
Definition game (gameId statusDate : string) : gmap string string :=
  <["StatusDate" := statusDate]> (<["GameId" := gameId]> ∅).

(** The ten most recent games a user hosts, and two older games the user
    was invited to. *)
Definition hosted : list (gmap string string) :=
  [game "h0" "FINISHED_2014-11-20"; game "h1" "FINISHED_2014-11-19";
   game "h2" "FINISHED_2014-11-18"; game "h3" "FINISHED_2014-11-17";
   game "h4" "FINISHED_2014-11-16"; game "h5" "FINISHED_2014-11-15";
   game "h6" "FINISHED_2014-11-14"; game "h7" "FINISHED_2014-11-13";
   game "h8" "FINISHED_2014-11-12"; game "h9" "FINISHED_2014-11-11"].

Definition invited : list (gmap string string) :=
  [game "o0" "FINISHED_2014-11-03"; game "o1" "FINISHED_2014-11-02"].

(** A store whose host index answers with [hosted] and whose opponent
    index answers with [invited]. *)
Definition sample_select (table : gmap string (gmap string string))
  (index user status : string) (limit : Z) : list (gmap string string) :=
  if String.eqb index "HostId-StatusDate-index" then hosted else invited.

(** * Properties *)

(** ** The conditions checked by the service *)

Lemma check_spec (stored : gmap string string)
  (expected : gmap string Expectation) :
  check stored expected = true <->
  forall k c, expected !! k = Some c -> holds stored k c = true.
Proof.
  unfold check. rewrite forallb_forall. split.
  - intros H k c Hk. apply (H (k, c)).
    apply list_elem_of_In, elem_of_map_to_list. exact Hk.
  - intros H [k c] Hin. apply H.
    apply elem_of_map_to_list, list_elem_of_In. exact Hin.
Qed.

Lemma check_singleton (stored : gmap string string) (k : string)
  (c : Expectation) :
  check stored (<[k := c]> ∅) = holds stored k c.
Proof.
  unfold check. rewrite insert_empty, map_to_list_singleton. simpl.
  apply andb_true_r.
Qed.

Lemma valid_updates_spec (attribute_updates : gmap string pyval) :
  valid_updates attribute_updates = true <->
  forall k v, attribute_updates !! k = Some v -> is_Some v /\ k <> "GameId".
Proof.
  unfold valid_updates. rewrite forallb_forall. split.
  - intros H k v Hk.
    assert (Hin : In (k, v) (map_to_list attribute_updates))
      by (apply list_elem_of_In, elem_of_map_to_list; exact Hk).
    apply H in Hin. simpl in Hin. apply andb_true_iff in Hin as [Hv Hne].
    split.
    + apply bool_decide_eq_true in Hv. exact Hv.
    + apply negb_true_iff, String.eqb_neq in Hne. exact Hne.
  - intros H [k v] Hin.
    apply list_elem_of_In, elem_of_map_to_list in Hin.
    destruct (H k v Hin) as [Hv Hne]. simpl.
    apply andb_true_iff. split.
    + apply bool_decide_eq_true. exact Hv.
    + apply negb_true_iff, String.eqb_neq. exact Hne.
Qed.

(** ** Listing with no user *)

(** C10: with [user == None] both [getGamesWithStatus] and [getGameInvites]
    return the empty list at once; the connection manager, and with it the
    log of requests sent to the store, is the one they were given, so no
    query is issued, and neither call raises. *)
Theorem None_user_is_empty_result
  (select : gmap string (gmap string string) -> string -> string -> string ->
            Z -> list (gmap string string))
  (cm : ConnectionManager) (status : string) :
  getGamesWithStatus select cm None status = (Some (Return []), cm) /\
  getGameInvites select cm None = (Return (Some []), cm).
Proof. split; reflexivity. Qed.

(** ** Invitations *)

(** C9: [createNewGame] hands the store one put request, for a record with
    exactly six attributes: GameId is the key, HostId and OUser are the
    creator, Turn and OpponentId are the invitee and StatusDate is
    "PENDING_" followed by the current time; when the store is reachable
    and holds no game under [gameId] yet, the call returns [True] and the
    table holds that new record under [gameId]. *)
Theorem createNewGame_record (cm : ConnectionManager)
  (gameId creator invitee now : string) :
  failure cm = None ->
  Games cm !! gameId = None ->
  exists (record : gmap string string) (cm' : ConnectionManager),
    createNewGame cm gameId creator invitee now = (Return true, cm') /\
    Games cm' = <[gameId := record]> (Games cm) /\
    calls cm' = PutItem record :: calls cm /\
    record !! "GameId" = Some gameId /\
    record !! "HostId" = Some creator /\
    record !! "StatusDate" = Some ("PENDING_" +:+ now) /\
    record !! "OUser" = Some creator /\
    record !! "Turn" = Some invitee /\
    record !! "OpponentId" = Some invitee /\
    dom record = list_to_set ["GameId"; "HostId"; "StatusDate"; "OUser";
                              "Turn"; "OpponentId"].
Proof.
  intros Hup Hnew. unfold createNewGame, Item_save_new. simpl. rewrite Hup.
  rewrite lookup_insert_ne, lookup_insert_ne, lookup_insert_ne,
    lookup_insert_ne, lookup_insert_ne, lookup_insert_eq by discriminate.
  rewrite Hnew.
  eexists _, _. split; [reflexivity |].
  repeat split; simpl; simplify_map_eq; reflexivity.
Qed.

Lemma createNewGame_record_witness :
  failure playing = None /\
  Games playing !! "g2" = None /\
  exists (record : gmap string string) (cm' : ConnectionManager),
    createNewGame playing "g2" "carol" "dave" "2014-11-04"
      = (Return true, cm') /\
    Games cm' = <["g2" := record]> (Games playing) /\
    calls cm' = PutItem record :: calls playing /\
    record !! "GameId" = Some "g2" /\
    record !! "HostId" = Some "carol" /\
    record !! "StatusDate" = Some ("PENDING_" +:+ "2014-11-04") /\
    record !! "OUser" = Some "carol" /\
    record !! "Turn" = Some "dave" /\
    record !! "OpponentId" = Some "dave" /\
    dom record = list_to_set ["GameId"; "HostId"; "StatusDate"; "OUser";
                              "Turn"; "OpponentId"].
Proof.
  split; [reflexivity |]. split; [reflexivity |].
  apply (createNewGame_record playing "g2" "carol" "dave" "2014-11-04");
    reflexivity.
Defined.

(** A [gameId] in use is refused: on a reachable store that holds a game
    under it, [createNewGame] raises the refusal of the store and the table
    keeps the game it had. *)
Lemma createNewGame_duplicate (cm : ConnectionManager)
  (gameId creator invitee now : string) :
  failure cm = None ->
  is_Some (Games cm !! gameId) ->
  (createNewGame cm gameId creator invitee now).1
    = Raise ConditionalCheckFailedException /\
  Games (createNewGame cm gameId creator invitee now).2 = Games cm.
Proof.
  intros Hup [stored Hstored]. unfold createNewGame, Item_save_new. simpl.
  rewrite Hup.
  rewrite lookup_insert_ne, lookup_insert_ne, lookup_insert_ne,
    lookup_insert_ne, lookup_insert_ne, lookup_insert_eq by discriminate.
  rewrite Hstored. split; reflexivity.
Qed.

(** What [acceptGameInvite] and [rejectGameInvite] answer, by the state of
    the service: the failure it raises, or else whether the stored record
    is still pending. *)
Lemma acceptGameInvite_result (cm : ConnectionManager)
  (game : gmap string string) (now gameId : string) :
  game !! "GameId" = Some gameId ->
  (acceptGameInvite cm game now).1 =
    match failure cm with
    | Some e =>
        if bool_decide (e = ConditionalCheckFailedException)
        then Return false else Raise e
    | None =>
        Return (begins_with (default ∅ (Games cm !! gameId) !! "StatusDate")
                  "PENDING_")
    end.
Proof.
  intros Hkey. unfold acceptGameInvite, update_item. rewrite Hkey. simpl.
  destruct (failure cm) as [e |].
  - destruct (bool_decide (e = ConditionalCheckFailedException)); reflexivity.
  - rewrite check_singleton. simpl.
    destruct (begins_with _ _); reflexivity.
Qed.

Lemma rejectGameInvite_result (cm : ConnectionManager)
  (game : gmap string string) (gameId : string) :
  game !! "GameId" = Some gameId ->
  (rejectGameInvite cm game).1 =
    match failure cm with
    | Some e => if isinstance_Exception e then Return false else Raise e
    | None =>
        Return (begins_with (default ∅ (Games cm !! gameId) !! "StatusDate")
                  "PENDING_")
    end.
Proof.
  intros Hkey. unfold rejectGameInvite, delete_item. rewrite Hkey. simpl.
  destruct (failure cm) as [e |].
  - destruct (isinstance_Exception e); reflexivity.
  - rewrite check_singleton. simpl.
    destruct (begins_with _ _); reflexivity.
Qed.

(** C4, as stated, fails for [rejectGameInvite]: the stored record is still
    pending, so the condition of the delete holds, the service cannot be
    reached ([IOError]), and the call answers [False] instead of raising. *)
Lemma rejectGameInvite_hides_transport_failure :
  begins_with (pending_game !! "StatusDate") "PENDING_" = true /\
  Games unreachable !! "g1" = Some pending_game /\
  (rejectGameInvite unreachable pending_game).1 = Return false /\
  (acceptGameInvite unreachable pending_game "2014-11-05").1 = Raise IOError.
Proof. repeat split; reflexivity. Qed.

(** C4, amended: [acceptGameInvite] turns only a conditional-check failure
    into [False] and raises every other failure of the service to its
    caller; [rejectGameInvite] turns every exception deriving from
    [Exception] that the delete raises, a conditional-check failure and a
    transport failure alike, into [False]. *)
Theorem invite_failure_conversion (cm : ConnectionManager)
  (game : gmap string string) (now gameId : string) (e : exn) :
  game !! "GameId" = Some gameId ->
  failure cm = Some e ->
  (acceptGameInvite cm game now).1 =
    (if bool_decide (e = ConditionalCheckFailedException)
     then Return false else Raise e) /\
  (rejectGameInvite cm game).1 =
    (if isinstance_Exception e then Return false else Raise e).
Proof.
  intros Hkey Hfail.
  rewrite (acceptGameInvite_result cm game now gameId Hkey).
  rewrite (rejectGameInvite_result cm game gameId Hkey).
  rewrite Hfail. split; reflexivity.
Qed.

Lemma invite_failure_conversion_witness :
  pending_game !! "GameId" = Some "g1" /\
  failure unreachable = Some IOError /\
  (acceptGameInvite unreachable pending_game "2014-11-05").1 = Raise IOError /\
  (rejectGameInvite unreachable pending_game).1 = Return false.
Proof.
  split; [reflexivity |]. split; [reflexivity |].
  apply (invite_failure_conversion unreachable pending_game "2014-11-05"
           "g1" IOError); reflexivity.
Defined.

(** ** Finishing a game *)

(** C5: on a record whose Result is set, [changeGameToFinishedState]
    returns [True] and leaves the item and the connection manager as they
    were: no request is sent.  A second call with the same inputs therefore
    answers [True] again, with the same Result and still no write. *)
Theorem changeGameToFinishedState_idempotent (cm : ConnectionManager)
  (item : gmap string string) (result : pyval)
  (current_user now winner : string) :
  item !! "Result" = Some winner ->
  changeGameToFinishedState cm item result current_user now
    = (Return true, item, cm) /\
  (let '(_, item1, cm1) :=
     changeGameToFinishedState cm item result current_user now in
   changeGameToFinishedState cm1 item1 result current_user now
     = (Return true, item, cm) /\
   item1 !! "Result" = Some winner /\
   calls cm1 = calls cm /\
   Games cm1 = Games cm).
Proof.
  intros Hres.
  assert (Hret : changeGameToFinishedState cm item result current_user now
                 = (Return true, item, cm)).
  { unfold changeGameToFinishedState. rewrite Hres.
    rewrite bool_decide_eq_true_2 by discriminate. reflexivity. }
  rewrite Hret. repeat split; assumption.
Qed.

Lemma changeGameToFinishedState_idempotent_witness :
  finished_game !! "Result" = Some "alice" /\
  changeGameToFinishedState reachable finished_game (Some "Lose") "alice"
    "2014-11-05" = (Return true, finished_game, reachable).
Proof.
  split; [reflexivity |].
  apply (changeGameToFinishedState_idempotent reachable finished_game
           (Some "Lose") "alice" "2014-11-05" "alice").
  reflexivity.
Defined.

(** C6: on a record without Result, [changeGameToFinishedState] sets Result
    to "Tie" for a tie, to the acting player for a win and otherwise to the
    other player (OpponentId when the acting player is HostId, else
    HostId), sets StatusDate to "FINISHED_" followed by the current time and
    Turn to "N/A", leaves the other attributes alone, and saves the item
    with no condition of its own: one put request for the changed item,
    which a reachable store accepts whatever it holds under that key. *)
Theorem changeGameToFinishedState_finishes (cm : ConnectionManager)
  (item : gmap string string) (result : pyval)
  (current_user now gameId : string) :
  item !! "Result" = None ->
  item !! "GameId" = Some gameId ->
  exists (r : outcome bool) (item' : gmap string string)
         (cm' : ConnectionManager),
    changeGameToFinishedState cm item result current_user now
      = (r, item', cm') /\
    item' !! "Result" =
      (if bool_decide (result = Some "Tie") then Some "Tie"
       else if bool_decide (result = Some "Win") then Some current_user
       else if bool_decide (item !! "HostId" = Some current_user)
            then item !! "OpponentId"
            else item !! "HostId") /\
    item' !! "StatusDate" = Some ("FINISHED_" +:+ now) /\
    item' !! "Turn" = Some "N/A" /\
    (forall k, k <> "Result" -> k <> "StatusDate" -> k <> "Turn" ->
               item' !! k = item !! k) /\
    calls cm' = PutItem item' :: calls cm /\
    (failure cm = None ->
     r = Return true /\ Games cm' = <[gameId := item']> (Games cm)).
Proof.
  intros Hres Hkey. unfold changeGameToFinishedState.
  rewrite Hres. rewrite bool_decide_eq_false_2 by (intros H; apply H; reflexivity).
  set (item1 := setitem (setitem item "StatusDate" _) "Turn" _).
  assert (Hhost : item1 !! "HostId" = item !! "HostId")
    by (subst item1; simpl; simplify_map_eq; reflexivity).
  assert (Hopp : item1 !! "OpponentId" = item !! "OpponentId")
    by (subst item1; simpl; simplify_map_eq; reflexivity).
  rewrite Hhost, Hopp.
  set (item2 := if bool_decide (result = Some "Tie") then _ else _).
  assert (Hother : forall k, k <> "Result" -> item2 !! k = item1 !! k).
  { intros k Hk. subst item2.
    repeat case_bool_decide; subst; unfold setitem;
      repeat case_match; simplify_map_eq; reflexivity. }
  assert (Hkey2 : item2 !! "GameId" = Some gameId).
  { rewrite Hother by discriminate. subst item1. simpl.
    simplify_map_eq. reflexivity. }
  unfold Item_save. simpl. rewrite Hkey2.
  destruct (failure cm) as [e |] eqn:Hfail.
  all: eexists _, item2, _; split; [reflexivity |].
  all: repeat split.
  all: try (rewrite Hother by discriminate; subst item1; simpl;
            simplify_map_eq; reflexivity).
  all: try (intros k H1 H2 H3; rewrite Hother by assumption; subst item1;
            simpl; simplify_map_eq; reflexivity).
  all: try discriminate.
  all: subst item2; repeat case_bool_decide; subst; unfold setitem;
    repeat case_match; simplify_map_eq; try reflexivity; try congruence.
Qed.

Lemma changeGameToFinishedState_finishes_witness :
  in_progress_game !! "Result" = None /\
  in_progress_game !! "GameId" = Some "g1" /\
  exists (r : outcome bool) (item' : gmap string string)
         (cm' : ConnectionManager),
    changeGameToFinishedState reachable in_progress_game (Some "Lose")
      "alice" "2014-11-06" = (r, item', cm') /\
    item' !! "Result" =
      (if bool_decide (Some "Lose" = Some "Tie") then Some "Tie"
       else if bool_decide (Some "Lose" = Some "Win") then Some "alice"
       else if bool_decide (in_progress_game !! "HostId" = Some "alice")
            then in_progress_game !! "OpponentId"
            else in_progress_game !! "HostId") /\
    item' !! "StatusDate" = Some ("FINISHED_" +:+ "2014-11-06") /\
    item' !! "Turn" = Some "N/A" /\
    (forall k, k <> "Result" -> k <> "StatusDate" -> k <> "Turn" ->
               item' !! k = in_progress_game !! k) /\
    calls cm' = PutItem item' :: calls reachable /\
    (failure reachable = None ->
     r = Return true /\ Games cm' = <["g1" := item']> (Games reachable)).
Proof.
  split; [reflexivity |]. split; [reflexivity |].
  apply (changeGameToFinishedState_finishes reachable in_progress_game
           (Some "Lose") "alice" "2014-11-06" "g1"); reflexivity.
Defined.

(** ** Moves *)

Lemma squares_names (position : string) :
  In position squares ->
  position <> "Turn" /\ position <> "StatusDate" /\ position <> "GameId" /\
  position <> "HostId" /\ position <> "OpponentId" /\ position <> "OUser".
Proof.
  unfold squares. simpl. intros H.
  repeat (destruct H as [H | H]; [subst position; repeat split; discriminate |]).
  destruct H.
Qed.

Lemma split_nonempty (sep : ascii) (s : string) : split sep s <> [].
Proof.
  destruct s as [| c s]; simpl; [discriminate |].
  destruct (Ascii.eqb c sep); [discriminate |].
  destruct (split sep s); discriminate.
Qed.

Lemma split_second (sep : ascii) (phase date : string) :
  is_Some (split sep (phase +:+ String sep date) !! 1%nat).
Proof.
  induction phase as [| c phase IH]; simpl.
  - rewrite Ascii.eqb_refl. simpl.
    destruct (split sep date) eqn:E; [| eauto].
    exfalso. exact (split_nonempty _ _ E).
  - destruct (Ascii.eqb c sep).
    + simpl. destruct (split sep (phase +:+ String sep date)) eqn:E; [| eauto].
      exfalso. exact (split_nonempty _ _ E).
    + destruct (split sep (phase +:+ String sep date)) eqn:E.
      * exfalso. exact (split_nonempty _ _ E).
      * exact IH.
Qed.

Lemma check_move (stored : gmap string string)
  (position current_player : string) :
  position <> "Turn" -> position <> "StatusDate" ->
  check stored
    (<[position := Exists false]>
       (<["Turn" := Value current_player]>
          (<["StatusDate" := BeginsWith "IN_PROGRESS_"]> ∅))) = true <->
  move_guard stored position current_player.
Proof.
  intros Hturn Hstatus. rewrite check_spec. unfold move_guard. split.
  - intros H. split; [| split].
    + apply (H "StatusDate" (BeginsWith "IN_PROGRESS_")).
      simplify_map_eq. reflexivity.
    + specialize (H "Turn" (Value current_player)). simpl in H.
      apply bool_decide_eq_true in H; [exact H |].
      simplify_map_eq. reflexivity.
    + specialize (H position (Exists false)). simpl in H.
      rewrite lookup_insert_eq in H. specialize (H eq_refl).
      destruct (stored !! position) eqn:E; [| reflexivity].
      rewrite bool_decide_eq_true_2 in H by eauto. discriminate.
  - intros (Hs & Ht & Hp) k c Hk.
    apply lookup_insert_Some in Hk as [[<- <-] | [_ Hk]].
    { simpl. rewrite Hp. rewrite bool_decide_eq_false_2; [reflexivity |].
      intros [x Hx]. discriminate. }
    apply lookup_insert_Some in Hk as [[<- <-] | [_ Hk]].
    { simpl. apply bool_decide_eq_true. exact Ht. }
    apply lookup_insert_Some in Hk as [[<- <-] | [_ Hk]].
    { simpl. exact Hs. }
    rewrite lookup_empty in Hk. discriminate.
Qed.

Lemma valid_move_updates (position mark : string) (next_player : pyval) :
  position <> "GameId" ->
  valid_updates (<["Turn" := next_player]> (<[position := Some mark]> ∅))
    = true <-> is_Some next_player.
Proof.
  intros Hkey. rewrite valid_updates_spec. split.
  - intros H. apply (H "Turn" next_player). apply lookup_insert_eq.
  - intros Hnext k v Hk.
    apply lookup_insert_Some in Hk as [[<- <-] | [_ Hk]].
    { split; [exact Hnext | discriminate]. }
    apply lookup_insert_Some in Hk as [[<- <-] | [_ Hk]].
    { split; [eauto | exact Hkey]. }
    rewrite lookup_empty in Hk. discriminate.
Qed.

Lemma put_all_move (old : gmap string string) (position mark next : string)
  (k : string) :
  put_all (<["Turn" := Some next]> (<[position := Some mark]> ∅)) old !! k =
    if bool_decide (k = "Turn") then Some next
    else if bool_decide (k = position) then Some mark
    else old !! k.
Proof.
  unfold put_all. rewrite lookup_union, lookup_omap.
  repeat case_bool_decide; subst; simplify_map_eq; simpl.
  - destruct (old !! "Turn"); reflexivity.
  - destruct (old !! position); reflexivity.
  - destruct (old !! k); reflexivity.
Qed.

Lemma next_of_game_record (item : gmap string string)
  (current_player : string) :
  game_record item -> is_Some (next_of item current_player).
Proof.
  intros (_ & Hhost & Hopp & _). unfold next_of.
  case_bool_decide; assumption.
Qed.

(** On a game record and a reachable store the call comes down to the
    check of the three conditions. *)
Lemma updateBoardAndTurn_game_record (cm : ConnectionManager)
  (item : gmap string string) (position current_player gameId : string) :
  failure cm = None -> game_record item ->
  item !! "GameId" = Some gameId -> In position squares ->
  updateBoardAndTurn cm item position current_player =
    let cm1 := sent (UpdateItem (Some gameId)) cm in
    if check (default ∅ (Games cm !! gameId))
         (<[position := Exists false]>
            (<["Turn" := Value current_player]>
               (<["StatusDate" := BeginsWith "IN_PROGRESS_"]> ∅)))
    then
      (Return true,
       with_games
         (<[gameId :=
              match Games cm !! gameId with
              | Some old =>
                  put_all (<["Turn" := next_of item current_player]>
                             (<[position :=
                                  Some (mark_of item current_player)]> ∅)) old
              | None =>
                  <["GameId" := gameId]>
                    (put_all (<["Turn" := next_of item current_player]>
                                (<[position :=
                                     Some (mark_of item current_player)]> ∅))
                       ∅)
              end]> (Games cm)) cm1)
    else (Return false, cm1).
Proof.
  intros Hup Hrec Hkey Hpos.
  pose proof (next_of_game_record item current_player Hrec) as Hnext.
  destruct Hrec as (_ & _ & _ & phase & date & Hsd).
  destruct (squares_names position Hpos) as (_ & _ & Hgid & _).
  unfold updateBoardAndTurn. rewrite Hsd.
  destruct (split_second "_" phase date) as [d Hd].
  change (phase +:+ "_" +:+ date) with (phase +:+ String "_" date).
  rewrite Hd, Hkey. fold (mark_of item current_player).
  change (if bool_decide (Some current_player = item !! "HostId")
          then item !! "OpponentId" else item !! "HostId")
    with (next_of item current_player).
  unfold update_item.
  change (failure (sent (UpdateItem (Some gameId)) cm)) with (failure cm).
  change (Games (sent (UpdateItem (Some gameId)) cm)) with (Games cm).
  cbv zeta. rewrite Hup.
  rewrite (proj2 (valid_move_updates position (mark_of item current_player)
                    (next_of item current_player) Hgid) Hnext).
  destruct (check _ _); reflexivity.
Qed.

(** C1: for a game record, a square and an acting player, on a reachable
    store, [updateBoardAndTurn] returns [False] exactly when one of the
    three conditions fails on the stored record: its StatusDate does not
    begin with "IN_PROGRESS_", or its Turn is not the acting player, or the
    square is already set (a record that is not stored has no attributes).
    So a move on an occupied square is rejected whatever Turn is.  The call
    returns [True] or [False], and a rejected move leaves the table as it
    was.  The stored record is the one the caller passes when the caller
    has just read it. *)
Theorem updateBoardAndTurn_rejected_iff (cm : ConnectionManager)
  (item : gmap string string) (position current_player gameId : string) :
  failure cm = None -> game_record item ->
  item !! "GameId" = Some gameId -> In position squares ->
  let stored := default ∅ (Games cm !! gameId) in
  let r := updateBoardAndTurn cm item position current_player in
  (r.1 = Return false <->
     begins_with (stored !! "StatusDate") "IN_PROGRESS_" = false \/
     stored !! "Turn" <> Some current_player \/
     is_Some (stored !! position)) /\
  (is_Some (stored !! position) -> r.1 = Return false) /\
  (r.1 = Return false -> Games r.2 = Games cm) /\
  (r.1 = Return false \/ r.1 = Return true).
Proof.
  intros Hup Hrec Hkey Hpos stored r.
  destruct (squares_names position Hpos) as (Hturn & Hstatus & _).
  assert (Hiff : r.1 = Return false <->
                 ~ move_guard stored position current_player).
  { subst r.
    rewrite (updateBoardAndTurn_game_record cm item position current_player
               gameId Hup Hrec Hkey Hpos).
    simpl. fold stored.
    pose proof (check_move stored position current_player Hturn Hstatus)
      as Hcheck.
    destruct (check stored _); simpl.
    - split; [discriminate |]. intros Hno. exfalso. apply Hno, Hcheck.
      reflexivity.
    - split; [| reflexivity]. intros _ Hguard. apply Hcheck in Hguard.
      discriminate. }
  assert (Hor : ~ move_guard stored position current_player <->
                begins_with (stored !! "StatusDate") "IN_PROGRESS_" = false \/
                stored !! "Turn" <> Some current_player \/
                is_Some (stored !! position)).
  { unfold move_guard. split.
    - intros Hno.
      destruct (begins_with (stored !! "StatusDate") "IN_PROGRESS_") eqn:Hs;
        [| left; reflexivity].
      destruct (decide (stored !! "Turn" = Some current_player)) as [Ht | Ht];
        [| right; left; exact Ht].
      destruct (stored !! position) eqn:Hp; [right; right; eauto |].
      exfalso. apply Hno. repeat split; assumption.
    - intros [Hs | [Ht | [x Hp]]] (Hs' & Ht' & Hp'); congruence. }
  split; [rewrite Hiff; exact Hor |].
  split; [intros Hocc; apply Hiff, Hor; right; right; exact Hocc |].
  split.
  - subst r.
    rewrite (updateBoardAndTurn_game_record cm item position current_player
               gameId Hup Hrec Hkey Hpos).
    simpl. destruct (check _ _); simpl; [discriminate | reflexivity].
  - subst r.
    rewrite (updateBoardAndTurn_game_record cm item position current_player
               gameId Hup Hrec Hkey Hpos).
    simpl. destruct (check _ _); simpl; [right | left]; reflexivity.
Qed.

Lemma in_progress_game_record : game_record in_progress_game.
Proof.
  unfold game_record. repeat split; try (eexists; reflexivity).
  exists "IN", "PROGRESS_2014-11-05". reflexivity.
Defined.

Lemma updateBoardAndTurn_rejected_iff_witness :
  failure playing = None /\ game_record in_progress_game /\
  in_progress_game !! "GameId" = Some "g1" /\ In "TopLeft" squares /\
  let stored := default ∅ (Games playing !! "g1") in
  let r := updateBoardAndTurn playing in_progress_game "TopLeft" "alice" in
  (r.1 = Return false <->
     begins_with (stored !! "StatusDate") "IN_PROGRESS_" = false \/
     stored !! "Turn" <> Some "alice" \/
     is_Some (stored !! "TopLeft")) /\
  (is_Some (stored !! "TopLeft") -> r.1 = Return false) /\
  (r.1 = Return false -> Games r.2 = Games playing) /\
  (r.1 = Return false \/ r.1 = Return true).
Proof.
  split; [reflexivity |]. split; [exact in_progress_game_record |].
  split; [reflexivity |]. split; [left; reflexivity |].
  apply (updateBoardAndTurn_rejected_iff playing in_progress_game "TopLeft"
           "alice" "g1");
    [reflexivity | exact in_progress_game_record | reflexivity
    | left; reflexivity].
Defined.

(** What a successful [updateBoardAndTurn] has gone through. *)
Lemma updateBoardAndTurn_True (cm cm' : ConnectionManager)
  (item : gmap string string) (position current_player : string) :
  In position squares ->
  updateBoardAndTurn cm item position current_player = (Return true, cm') ->
  exists (gameId next : string) (old : gmap string string),
    item !! "GameId" = Some gameId /\
    next_of item current_player = Some next /\
    Games cm !! gameId = Some old /\
    move_guard old position current_player /\
    cm' = with_games
            (<[gameId :=
                 put_all (<["Turn" := Some next]>
                            (<[position :=
                                 Some (mark_of item current_player)]> ∅)) old]>
               (Games cm))
            (sent (UpdateItem (Some gameId)) cm).
Proof.
  intros Hpos. destruct (squares_names position Hpos)
    as (Hturn & Hstatus & Hgid & _).
  unfold updateBoardAndTurn.
  destruct (item !! "StatusDate") as [statusDate |]; [| discriminate].
  destruct (split "_" statusDate !! 1%nat) as [date |]; [| discriminate].
  fold (mark_of item current_player).
  change (if bool_decide (Some current_player = item !! "HostId")
          then item !! "OpponentId" else item !! "HostId")
    with (next_of item current_player).
  unfold update_item.
  change (failure (sent (UpdateItem (item !! "GameId")) cm))
    with (failure cm).
  change (Games (sent (UpdateItem (item !! "GameId")) cm)) with (Games cm).
  cbv zeta.
  destruct (failure cm) as [e |].
  { case_bool_decide; discriminate. }
  destruct (item !! "GameId") as [gameId |];
    [| rewrite bool_decide_eq_false_2 by discriminate; discriminate].
  destruct (valid_updates _) eqn:Hvalid;
    [| rewrite bool_decide_eq_false_2 by discriminate; discriminate].
  apply valid_move_updates in Hvalid as [next Hnext]; [| exact Hgid].
  destruct (check _ _) eqn:Hcheck;
    [| rewrite bool_decide_eq_true_2 by reflexivity; discriminate].
  apply check_move in Hcheck; [| exact Hturn | exact Hstatus].
  destruct (Games cm !! gameId) as [old |] eqn:Hold.
  - intros [= <-]. exists gameId, next, old. rewrite Hnext.
    split; [reflexivity |]. split; [reflexivity |]. split; [exact Hold |].
    split; [exact Hcheck | reflexivity].
  - destruct Hcheck as (_ & Hnone & _). simpl in Hnone.
    rewrite lookup_empty in Hnone. discriminate.
Qed.

(** C3: when [updateBoardAndTurn] returns [True] on a square, the stored
    record of the game gets that square set to "O" if the acting player is
    the OUser of the record passed and to "X" otherwise, and gets Turn set
    to the other player (OpponentId if the acting player is HostId, else
    HostId); every other attribute of the record, GameId, HostId,
    OpponentId and OUser among them, and every other game of the table keep
    their values. *)
Theorem updateBoardAndTurn_effect (cm cm' : ConnectionManager)
  (item : gmap string string) (position current_player : string) :
  In position squares ->
  updateBoardAndTurn cm item position current_player = (Return true, cm') ->
  exists (gameId : string) (old new : gmap string string),
    item !! "GameId" = Some gameId /\
    Games cm !! gameId = Some old /\
    Games cm' = <[gameId := new]> (Games cm) /\
    new !! position =
      Some (if bool_decide (item !! "OUser" = Some current_player)
            then "O" else "X") /\
    new !! "Turn" =
      (if bool_decide (Some current_player = item !! "HostId")
       then item !! "OpponentId" else item !! "HostId") /\
    is_Some (new !! "Turn") /\
    (forall k, k <> position -> k <> "Turn" -> new !! k = old !! k) /\
    new !! "GameId" = old !! "GameId" /\
    new !! "HostId" = old !! "HostId" /\
    new !! "OpponentId" = old !! "OpponentId" /\
    new !! "OUser" = old !! "OUser".
Proof.
  intros Hpos Hrun.
  destruct (squares_names position Hpos)
    as (Hturn & Hstatus & Hgid & Hhost & Hopp & Houser).
  destruct (updateBoardAndTurn_True cm cm' item position current_player
              Hpos Hrun)
    as (gameId & next & old & Hkey & Hnext & Hold & _ & ->).
  set (new := put_all _ old).
  assert (Hnew : forall k, new !! k =
                   if bool_decide (k = "Turn") then Some next
                   else if bool_decide (k = position)
                        then Some (mark_of item current_player)
                        else old !! k)
    by (intros k; apply put_all_move).
  assert (Hkeep : forall k, k <> position -> k <> "Turn" ->
                            new !! k = old !! k).
  { intros k H1 H2. rewrite Hnew.
    rewrite !bool_decide_eq_false_2 by assumption. reflexivity. }
  exists gameId, old, new.
  split; [exact Hkey |]. split; [exact Hold |]. split; [reflexivity |].
  split.
  { rewrite Hnew, bool_decide_eq_false_2 by assumption.
    rewrite bool_decide_eq_true_2 by reflexivity. reflexivity. }
  split.
  { rewrite Hnew, bool_decide_eq_true_2 by reflexivity.
    symmetry. exact Hnext. }
  split.
  { rewrite Hnew, bool_decide_eq_true_2 by reflexivity. eauto. }
  split; [exact Hkeep |].
  repeat split; apply Hkeep; congruence.
Qed.

Lemma updateBoardAndTurn_effect_witness :
  In "TopLeft" squares /\
  updateBoardAndTurn playing in_progress_game "TopLeft" "bob"
    = (Return true, after_first_move) /\
  exists (gameId : string) (old new : gmap string string),
    in_progress_game !! "GameId" = Some gameId /\
    Games playing !! gameId = Some old /\
    Games after_first_move = <[gameId := new]> (Games playing) /\
    new !! "TopLeft" =
      Some (if bool_decide (in_progress_game !! "OUser" = Some "bob")
            then "O" else "X") /\
    new !! "Turn" =
      (if bool_decide (Some "bob" = in_progress_game !! "HostId")
       then in_progress_game !! "OpponentId"
       else in_progress_game !! "HostId") /\
    is_Some (new !! "Turn") /\
    (forall k, k <> "TopLeft" -> k <> "Turn" -> new !! k = old !! k) /\
    new !! "GameId" = old !! "GameId" /\
    new !! "HostId" = old !! "HostId" /\
    new !! "OpponentId" = old !! "OpponentId" /\
    new !! "OUser" = old !! "OUser".
Proof.
  split; [left; reflexivity |]. split; [reflexivity |].
  apply (updateBoardAndTurn_effect playing after_first_move in_progress_game
           "TopLeft" "bob"); [left; reflexivity | reflexivity].
Defined.

(** ** Alternation of turns *)

Lemma getGame_Some (cm cm' : ConnectionManager) (gameId : string)
  (item : gmap string string) :
  getGame cm gameId = (Return (Some item), cm') ->
  Games cm !! gameId = Some item /\ Games cm' = Games cm.
Proof.
  unfold getGame, get_item.
  change (failure (sent (GetItem gameId) cm)) with (failure cm).
  change (Games (sent (GetItem gameId) cm)) with (Games cm).
  cbv zeta.
  destruct (failure cm) as [e |].
  { repeat case_match; discriminate. }
  destruct (Games cm !! gameId) as [stored |].
  - intros [= <- <-]. split; reflexivity.
  - rewrite bool_decide_eq_true_2 by reflexivity. discriminate.
Qed.

Lemma acceptGameInvite_True (cm cm' : ConnectionManager)
  (game : gmap string string) (now gameId : string) :
  game !! "GameId" = Some gameId ->
  acceptGameInvite cm game now = (Return true, cm') ->
  exists old : gmap string string,
    Games cm !! gameId = Some old /\
    begins_with (old !! "StatusDate") "PENDING_" = true /\
    Games cm' =
      <[gameId := <["StatusDate" := "IN_PROGRESS_" +:+ now]> old]> (Games cm).
Proof.
  intros Hkey. unfold acceptGameInvite, update_item. rewrite Hkey.
  change (failure (sent (UpdateItem (Some gameId)) cm)) with (failure cm).
  change (Games (sent (UpdateItem (Some gameId)) cm)) with (Games cm).
  cbv zeta.
  destruct (failure cm) as [e |].
  { case_bool_decide; discriminate. }
  replace (valid_updates (<["StatusDate" := Some ("IN_PROGRESS_" +:+ now)]> ∅))
    with true by (symmetry; apply valid_updates_spec; intros k v Hk;
                  apply lookup_insert_Some in Hk as [[<- <-] | [_ Hk]];
                  [split; [eauto | discriminate]
                  | rewrite lookup_empty in Hk; discriminate]).
  rewrite check_singleton.
  destruct (holds _ _ _) eqn:Hholds;
    [| rewrite bool_decide_eq_true_2 by reflexivity; discriminate].
  destruct (Games cm !! gameId) as [old |] eqn:Hold.
  - intros [= <-]. exists old. split; [reflexivity |].
    split; [exact Hholds |]. simpl. f_equal.
    apply map_eq. intros k. unfold put_all.
    rewrite lookup_union, lookup_omap.
    destruct (decide (k = "StatusDate")) as [-> | Hne].
    + rewrite !lookup_insert_eq. simpl. destruct (old !! "StatusDate");
        reflexivity.
    + rewrite !lookup_insert_ne, lookup_empty by congruence. simpl.
      destruct (old !! k); reflexivity.
  - simpl in Hholds. rewrite lookup_empty in Hholds. discriminate.
Qed.

Lemma played_turn (gameId creator invitee : string) (n : nat)
  (cm cm' : ConnectionManager) :
  played gameId n cm cm' ->
  turn_after gameId creator invitee 0 cm ->
  turn_after gameId creator invitee n cm'.
Proof.
  intros Hplayed Hstart.
  induction Hplayed as
    [ cm
    | n cm cm1 cm2 game now _ IH Hkey Haccept
    | n cm cm1 cm2 cm3 item position current_player _ IH Hget Hpos Hmove ].
  - exact Hstart.
  - destruct (IH Hstart) as (record & Hrec & Hgid & Hhost & Hopp & Hturn).
    destruct (acceptGameInvite_True cm1 cm2 game now gameId Hkey Haccept)
      as (old & Hold & _ & Hgames).
    rewrite Hrec in Hold. injection Hold as <-.
    exists (<["StatusDate" := "IN_PROGRESS_" +:+ now]> record).
    rewrite Hgames, lookup_insert_eq.
    rewrite !lookup_insert_ne by discriminate.
    repeat split; assumption.
  - destruct (IH Hstart) as (record & Hrec & Hgid & Hhost & Hopp & Hturn).
    destruct (getGame_Some cm1 cm2 gameId item Hget) as [Hitem Hsame].
    rewrite Hrec in Hitem. injection Hitem as <-.
    destruct (updateBoardAndTurn_True cm2 cm3 record position current_player
                Hpos Hmove)
      as (gameId' & next & old & Hkey & Hnext & Hold & Hguard & ->).
    rewrite Hgid in Hkey. injection Hkey as <-.
    rewrite Hsame, Hrec in Hold. injection Hold as <-.
    destruct Hguard as (_ & Hcurrent & _).
    destruct (squares_names position Hpos)
      as (_ & _ & Hn1 & Hn2 & Hn3 & _).
    eexists. cbn [Games with_games]. rewrite lookup_insert_eq.
    split; [reflexivity |].
    rewrite !put_all_move.
    rewrite !(bool_decide_eq_false_2 (_ = "Turn")) by discriminate.
    rewrite !(bool_decide_eq_false_2 (_ = position)) by congruence.
    rewrite bool_decide_eq_true_2 by reflexivity.
    split; [exact Hgid |]. split; [exact Hhost |]. split; [exact Hopp |].
    f_equal. unfold next_of in Hnext. rewrite Hhost, Hopp in Hnext.
    rewrite Hturn in Hcurrent. injection Hcurrent as <-.
    rewrite Nat.even_succ, <- Nat.negb_even.
    destruct (Nat.even n); simpl.
    + case_bool_decide as Hsame'; simpl in Hnext; congruence.
    + rewrite bool_decide_eq_true_2 in Hnext by reflexivity. congruence.
Qed.

Lemma createNewGame_turn (cm cm' : ConnectionManager)
  (gameId creator invitee now : string) :
  createNewGame cm gameId creator invitee now = (Return true, cm') ->
  turn_after gameId creator invitee 0 cm'.
Proof.
  unfold createNewGame, Item_save_new.
  change (failure (sent ?c cm)) with (failure cm).
  cbv zeta. cbn [Games sent].
  destruct (failure cm) as [e |]; [discriminate |].
  rewrite lookup_insert_ne, lookup_insert_ne, lookup_insert_ne,
    lookup_insert_ne, lookup_insert_ne, lookup_insert_eq by discriminate.
  destruct (Games cm !! gameId); [discriminate |].
  intros [= <-]. eexists. cbn [Games with_games sent].
  rewrite lookup_insert_eq. split; [reflexivity |].
  repeat split; simplify_map_eq; reflexivity.
Qed.

(** C7, as stated, fails: the record that [createNewGame] writes for host
    "alice" and invitee "bob" has Turn "bob", so after no move at all Turn
    is the OpponentId and not the HostId. *)
Lemma host_first_alternation_fails :
  ~ (forall (cm cm0 cm' : ConnectionManager)
            (gameId creator invitee now : string) (N : nat)
            (record : gmap string string),
       createNewGame cm gameId creator invitee now = (Return true, cm0) ->
       played gameId N cm0 cm' ->
       Games cm' !! gameId = Some record ->
       record !! "Turn" =
         (if Nat.even N then record !! "HostId"
          else record !! "OpponentId")).
Proof.
  intros H.
  specialize (H empty_table created created "g1" "alice" "bob" "2014-11-04"
                0%nat pending_game eq_refl (played_none "g1" created) eq_refl).
  vm_compute in H. discriminate H.
Qed.

(** C7, amended: starting from a freshly created invite, after N
    consecutive successful moves the record's Turn equals OpponentId (the
    invitee) if N is even and HostId if N is odd: the invitee moves first
    by the assignment made at creation, and Turn then alternates between
    the two players. *)
Theorem Turn_alternates (cm cm0 cm' : ConnectionManager)
  (gameId creator invitee now : string) (N : nat) :
  createNewGame cm gameId creator invitee now = (Return true, cm0) ->
  played gameId N cm0 cm' ->
  exists record : gmap string string,
    Games cm' !! gameId = Some record /\
    record !! "HostId" = Some creator /\
    record !! "OpponentId" = Some invitee /\
    record !! "Turn" = (if Nat.even N then record !! "OpponentId"
                        else record !! "HostId").
Proof.
  intros Hcreate Hplayed.
  destruct (played_turn gameId creator invitee N cm0 cm' Hplayed
              (createNewGame_turn cm cm0 gameId creator invitee now Hcreate))
    as (record & Hrec & _ & Hhost & Hopp & Hturn).
  exists record. rewrite Hhost, Hopp, Hturn.
  repeat split; try assumption. destruct (Nat.even N); reflexivity.
Qed.

Lemma played_once : played "g1" 1 created moved_once.
Proof.
  apply (played_move "g1" 0 created accepted (getGame accepted "g1").2
           moved_once in_progress_game "MiddleMiddle" "bob").
  - apply (played_accept "g1" 0 created created accepted pending_game
             "2014-11-05").
    + apply played_none.
    + reflexivity.
    + reflexivity.
  - reflexivity.
  - do 4 right. left. reflexivity.
  - reflexivity.
Defined.

Lemma Turn_alternates_witness :
  createNewGame empty_table "g1" "alice" "bob" "2014-11-04"
    = (Return true, created) /\
  played "g1" 1 created moved_once /\
  exists record : gmap string string,
    Games moved_once !! "g1" = Some record /\
    record !! "HostId" = Some "alice" /\
    record !! "OpponentId" = Some "bob" /\
    record !! "Turn" = (if Nat.even 1 then record !! "OpponentId"
                        else record !! "HostId").
Proof.
  split; [reflexivity |]. split; [exact played_once |].
  apply (Turn_alternates empty_table created moved_once "g1" "alice" "bob"
           "2014-11-04" 1); [reflexivity | exact played_once].
Defined.

(** ** Recency merge *)

Lemma len_app (games : list (gmap string string)) (g : gmap string string) :
  len (games ++ [g]) = len games + 1.
Proof. unfold len. rewrite length_app. simpl. lia. Qed.

(** The fuel of [mergeQueries] is enough: the loop always ends. *)
Lemma mergeLoop_returns (fuel : nat) (limit : Z) (host opp : ResultSet)
  (games : list (gmap string string))
  (game_one game_two : option (gmap string string)) :
  (0 < fuel)%nat -> limit + 2 - len games <= Z.of_nat fuel ->
  is_Some (mergeLoop fuel limit host opp games game_one game_two).
Proof.
  revert host opp games game_one game_two.
  induction fuel as [| fuel IH]; intros host opp games game_one game_two
    Hpos Hfuel; [lia |].
  simpl. destruct (len games <=? limit) eqn:Hlen; [| eauto].
  apply Z.leb_le in Hlen.
  destruct (refill game_one host) as [[g1 host'] | e].
  - destruct (refill game_two opp) as [[g2 opp'] | e].
    + destruct (Item_gt g1 g2); apply IH; rewrite ?len_app; lia.
    + destruct e; eauto.
  - destruct e; eauto.
Qed.

Lemma mergeQueries_returns (host opp : ResultSet) (limit : Z) :
  is_Some (mergeQueries host opp limit).
Proof.
  unfold mergeQueries. apply mergeLoop_returns; [lia |].
  change (len []) with 0. lia.
Qed.

Lemma drain_past_limit (limit : Z) (rest games : list (gmap string string)) :
  limit < len games ->
  drain limit rest None games = Return (games ++ rest)%list.
Proof.
  revert games. induction rest as [| r rest IH]; intros games Hlen; simpl.
  - rewrite app_nil_r. reflexivity.
  - rewrite (proj2 (Z.eqb_neq _ _)) by lia.
    rewrite IH by (rewrite len_app; lia).
    rewrite <- app_assoc. reflexivity.
Qed.

(** Once a head [o] of the second stream is pending and every game left in
    the first stream is newer, the loop emits the first stream, finds it
    exhausted with [limit] games collected, appends [o] and then all the
    rest of the second stream. *)
Lemma mergeLoop_overrun (limit : Z) (o : gmap string string)
  (O : list (gmap string string)) :
  forall (H : list (gmap string string)) (fuel : nat)
         (games : list (gmap string string)),
    Forall (fun h => Item_gt h o = true) H ->
    len games + len H = limit ->
    (length H < fuel)%nat ->
    mergeLoop fuel limit (iter H) (iter O) games None (Some o) =
    Some (Return (games ++ H ++ o :: O)%list).
Proof.
  induction H as [| h H IH]; intros fuel games Hgt Hlen Hfuel;
    (destruct fuel as [| fuel]; [simpl in Hfuel; lia |]).
  - change (len []) with 0 in Hlen. simpl.
    rewrite (proj2 (Z.leb_le _ _)) by lia.
    rewrite drain_past_limit by (rewrite len_app; lia).
    rewrite <- app_assoc. reflexivity.
  - assert (Hlen' : len (h :: H) = len H + 1) by (unfold len; simpl; lia).
    inversion Hgt as [| ? ? Hh HH]; subst.
    simpl. rewrite (proj2 (Z.leb_le _ _)) by (unfold len in *; lia).
    rewrite Hh.
    change {| rows := H; broken := None |} with (iter H).
    rewrite IH; [| exact HH | rewrite len_app; lia | simpl in Hfuel; lia].
    rewrite <- app_assoc. reflexivity.
Qed.

Lemma mergeQueries_overrun (limit : Z) (h o : gmap string string)
  (H O : list (gmap string string)) :
  Forall (fun h => Item_gt h o = true) (h :: H) ->
  len (h :: H) = limit ->
  mergeQueries (iter (h :: H)) (iter (o :: O)) limit =
  Some (Return ((h :: H) ++ o :: O)%list).
Proof.
  intros Hgt Hlen.
  assert (Hlen' : len (h :: H) = len H + 1) by (unfold len; simpl; lia).
  inversion Hgt as [| ? ? Hh HH]; subst.
  unfold mergeQueries. cbn [mergeLoop]. change (len []) with 0.
  rewrite (proj2 (Z.leb_le _ _)) by (unfold len in *; lia).
  cbn [refill next iter rows broken]. rewrite Hh.
  change {| rows := H; broken := None |} with (iter H).
  change {| rows := O; broken := None |} with (iter O).
  rewrite mergeLoop_overrun;
    [reflexivity | exact HH | unfold len; simpl; lia
    | unfold len; simpl; lia].
Qed.

(** C2, the failing inputs: with limit 1, a host stream of one game and an
    opponent stream of three older games, both descending, [mergeQueries]
    returns all four games, where the claim allows min(1, 4) = 1; with the
    default limit 10, ten hosted games and two older games as opponent, it
    returns all twelve.  The loop runs while [len(games) <= limit], so it
    is entered with [limit] games collected; the pending head of the other
    stream is then appended without a test and, the length being past
    [limit], the test [len(games) == limit] of the draining loop never
    holds. *)
Theorem mergeQueries_exceeds_limit :
  let A := [game "a" "FINISHED_4"] in
  let B := [game "b" "FINISHED_3"; game "c" "FINISHED_2";
            game "d" "FINISHED_1"] in
  (descending A = true /\ descending B = true /\
   mergeQueries (iter A) (iter B) 1 = Some (Return (A ++ B)%list) /\
   Z.min 1 (len A + len B) < len (A ++ B)%list) /\
  (descending hosted = true /\ descending invited = true /\
   mergeQueries (iter hosted) (iter invited) 10
     = Some (Return (hosted ++ invited)%list) /\
   Z.min 10 (len hosted + len invited) < len (hosted ++ invited)%list).
Proof.
  intros A B. split.
  - split; [reflexivity |]. split; [vm_compute; reflexivity |].
    split; [| reflexivity].
    apply (mergeQueries_overrun 1); [| reflexivity].
    repeat constructor.
  - split; [vm_compute; reflexivity |]. split; [vm_compute; reflexivity |].
    split; [| reflexivity].
    apply (mergeQueries_overrun 10); [| reflexivity].
    repeat constructor; vm_compute; reflexivity.
Qed.






(** ** What the merge does keep: order and interleaving

    On two finite descending streams the result of [mergeQueries] is
    descending and interleaves a prefix of each stream, whatever the
    limit. *)

Lemma pyval_gt_asym (a b : pyval) :
  pyval_gt a b = true -> pyval_gt b a = false.
Proof.
  destruct a as [x |], b as [y |]; simpl; try reflexivity; try discriminate.
  unfold String.ltb. rewrite (String.compare_antisym y x).
  destruct (String.compare x y); simpl; try discriminate; reflexivity.
Qed.

Lemma descending_cons (g : gmap string string)
  (out : list (gmap string string)) :
  descending (g :: out) = true <->
  (forall o, head out = Some o -> Item_gt o g = false) /\
  descending out = true.
Proof.
  destruct out as [| o out]; simpl.
  - split; [intros _; split; [discriminate | reflexivity] | reflexivity].
  - rewrite andb_true_iff, negb_true_iff. split.
    + intros [Hgt Hrest]. split; [intros ? [= <-]; exact Hgt | exact Hrest].
    + intros [Hgt Hrest]. split; [apply Hgt; reflexivity | exact Hrest].
Qed.

Lemma descending_prefix (out rest : list (gmap string string)) :
  descending (out ++ rest)%list = true -> descending out = true.
Proof.
  induction out as [| g out IH]; [reflexivity |].
  change ((g :: out) ++ rest)%list with (g :: (out ++ rest)%list).
  rewrite !descending_cons. intros [Hgt Hrest]. split.
  - intros o Ho. apply Hgt. destruct out; [discriminate | exact Ho].
  - apply IH, Hrest.
Qed.

Lemma weave_prefix_one (out rest B : list (gmap string string)) :
  weave out (out ++ rest)%list B.
Proof. induction out; simpl; constructor; assumption. Qed.

Lemma weave_prefix_two (out rest A : list (gmap string string)) :
  weave out A (out ++ rest)%list.
Proof. induction out; simpl; constructor; assumption. Qed.

Lemma weave_head (o : gmap string string)
  (out A B : list (gmap string string)) :
  weave (o :: out) A B -> head A = Some o \/ head B = Some o.
Proof. intros H. inversion H; subst; [left | right]; reflexivity. Qed.

Lemma weave_length (out A B : list (gmap string string)) :
  weave out A B -> (length out <= length A + length B)%nat.
Proof. induction 1; simpl; lia. Qed.

Lemma drain_prefix (limit : Z) (rest games : list (gmap string string)) :
  exists out tl : list (gmap string string),
    drain limit rest None games = Return (games ++ out)%list /\
    rest = (out ++ tl)%list.
Proof.
  revert games. induction rest as [| r rest IH]; intros games; simpl.
  - exists [], []. rewrite app_nil_r. split; reflexivity.
  - destruct (len games =? limit).
    + exists [], (r :: rest). rewrite app_nil_r. split; reflexivity.
    + destruct (IH (games ++ [r])%list) as (out & tl & Hrun & ->).
      exists (r :: out), tl. rewrite Hrun, <- app_assoc.
      split; reflexivity.
Qed.

Lemma refill_unbroken (game : option (gmap string string))
  (it : ResultSet) :
  broken it = None ->
  (pending game it = [] /\ game = None /\
   refill game it = Raise StopIteration) \/
  (exists (g : gmap string string) (it' : ResultSet),
     refill game it = Return (g, it') /\
     pending game it = g :: rows it' /\ broken it' = None).
Proof.
  intros Hbroken. destruct game as [g |]; simpl.
  - right. exists g, it. repeat split. exact Hbroken.
  - unfold next. destruct (rows it) as [| g l] eqn:Hrows.
    + left. rewrite Hbroken. repeat split.
    + right. eexists g, _. repeat split. exact Hbroken.
Qed.

Lemma mergeLoop_weaves (fuel : nat) (limit : Z) :
  forall (host opp : ResultSet) (games : list (gmap string string))
         (game_one game_two : option (gmap string string))
         (r : outcome (list (gmap string string))),
    broken host = None -> broken opp = None ->
    descending (pending game_one host) = true ->
    descending (pending game_two opp) = true ->
    mergeLoop fuel limit host opp games game_one game_two = Some r ->
    exists out : list (gmap string string),
      r = Return (games ++ out)%list /\
      weave out (pending game_one host) (pending game_two opp) /\
      descending out = true.
Proof.
  induction fuel as [| fuel IH];
    intros host opp games game_one game_two r Hhost Hopp Hone Htwo Hrun;
    [discriminate |].
  simpl in Hrun. destruct (len games <=? limit).
  2:{ injection Hrun as <-. exists []. rewrite app_nil_r.
      repeat split. constructor. }
  destruct (refill_unbroken game_one host Hhost)
    as [(Hnil & -> & Hrefill) | (g1 & host' & Hrefill & Hpend1 & Hhost')];
    rewrite Hrefill in Hrun.
  { (* the first stream is exhausted *)
    injection Hrun as <-. rewrite Hopp.
    destruct game_two as [g2 |].
    - destruct (drain_prefix limit (rows opp) (games ++ [g2])%list)
        as (out & tl & -> & Hrows).
      exists (g2 :: out). rewrite <- app_assoc. split; [reflexivity |].
      simpl pending in *. rewrite Hrows in *. split.
      + apply (weave_prefix_two (g2 :: out) tl).
      + apply (descending_prefix (g2 :: out) tl). exact Htwo.
    - destruct (drain_prefix limit (rows opp) games)
        as (out & tl & -> & Hrows).
      exists out. split; [reflexivity |].
      simpl pending in *. rewrite Hrows in *. split.
      + apply weave_prefix_two.
      + apply (descending_prefix out tl). exact Htwo. }
  destruct (refill_unbroken game_two opp Hopp)
    as [(Hnil & -> & Hrefill2) | (g2 & opp' & Hrefill2 & Hpend2 & Hopp')];
    rewrite Hrefill2 in Hrun.
  { (* the second stream is exhausted *)
    injection Hrun as <-. rewrite Hhost'.
    destruct (drain_prefix limit (rows host') (games ++ [g1])%list)
      as (out & tl & -> & Hrows).
    exists (g1 :: out). rewrite <- app_assoc. split; [reflexivity |].
    rewrite Hpend1 in *. rewrite Hrows in *. split.
    - apply (weave_prefix_one (g1 :: out) tl).
    - apply (descending_prefix (g1 :: out) tl). exact Hone. }
  rewrite Hpend1 in *. rewrite Hpend2 in *.
  apply descending_cons in Hone as [Hone1 Hone2].
  apply descending_cons in Htwo as [Htwo1 Htwo2].
  destruct (Item_gt g1 g2) eqn:Hgt.
  - destruct (IH host' opp' (games ++ [g1])%list None (Some g2) r
                Hhost' Hopp' Hone2
                (proj2 (descending_cons g2 (rows opp'))
                   (conj Htwo1 Htwo2)) Hrun)
      as (out & -> & Hweave & Hdesc).
    exists (g1 :: out). rewrite <- app_assoc. split; [reflexivity |].
    split; [apply weave_one; exact Hweave |].
    apply descending_cons. split; [| exact Hdesc].
    intros o Ho. destruct out as [| o' out]; [discriminate |].
    injection Ho as ->.
    destruct (weave_head _ _ _ _ Hweave) as [Hhead | Hhead].
    + apply Hone1. exact Hhead.
    + injection Hhead as <-. unfold Item_gt in *.
      apply pyval_gt_asym. exact Hgt.
  - destruct (IH host' opp' (games ++ [g2])%list (Some g1) None r
                Hhost' Hopp'
                (proj2 (descending_cons g1 (rows host'))
                   (conj Hone1 Hone2)) Htwo2 Hrun)
      as (out & -> & Hweave & Hdesc).
    exists (g2 :: out). rewrite <- app_assoc. split; [reflexivity |].
    split; [apply weave_two; exact Hweave |].
    apply descending_cons. split; [| exact Hdesc].
    intros o Ho. destruct out as [| o' out]; [discriminate |].
    injection Ho as ->.
    destruct (weave_head _ _ _ _ Hweave) as [Hhead | Hhead].
    + injection Hhead as <-. exact Hgt.
    + apply Htwo1. exact Hhead.
Qed.

(** X11: for two finite descending sequences and every limit,
    [mergeQueries] returns a descending list that interleaves a prefix of
    each, so it holds no more games than the two sequences together. *)
Lemma mergeQueries_descending_weave (A B : list (gmap string string))
  (limit : Z) :
  descending A = true -> descending B = true ->
  exists out : list (gmap string string),
    mergeQueries (iter A) (iter B) limit = Some (Return out) /\
    descending out = true /\ weave out A B /\
    (length out <= length A + length B)%nat.
Proof.
  intros HA HB.
  destruct (mergeQueries_returns (iter A) (iter B) limit) as [r Hr].
  destruct (mergeLoop_weaves _ limit (iter A) (iter B) [] None None r
              eq_refl eq_refl HA HB Hr)
    as (out & -> & Hweave & Hdesc).
  exists out. split; [exact Hr |]. split; [exact Hdesc |].
  split; [exact Hweave |]. apply weave_length in Hweave. exact Hweave.
Qed.

(** * Further properties of the controller *)

(** ** Reading a game *)

Lemma getGame_run (cm : ConnectionManager) (gameId : string) :
  getGame cm gameId =
    (match failure cm with
     | None => Return (Games cm !! gameId)
     | Some e =>
         if bool_decide (e = ItemNotFound) || isinstance_JSONResponseError e
         then Return None else Raise e
     end,
     sent (GetItem gameId) cm).
Proof.
  unfold getGame, get_item.
  change (failure (sent (GetItem gameId) cm)) with (failure cm).
  change (Games (sent (GetItem gameId) cm)) with (Games cm).
  cbv zeta.
  destruct (failure cm) as [e |].
  - destruct (bool_decide (e = ItemNotFound)); [reflexivity |].
    destruct (isinstance_JSONResponseError e); reflexivity.
  - destruct (Games cm !! gameId); [reflexivity |].
    rewrite bool_decide_eq_true_2 by reflexivity. reflexivity.
Qed.

(** X1: [getGame] answers the stored record, [None] when no record has
    that key and [None] again when the service fails with [ItemNotFound]
    or a [JSONResponseError] (its subclasses included); any other failure
    is raised.  In no case is the table changed. *)
Theorem getGame_result (cm : ConnectionManager) (gameId : string) :
  (getGame cm gameId).1 =
    match failure cm with
    | None => Return (Games cm !! gameId)
    | Some e =>
        if bool_decide (e = ItemNotFound) || isinstance_JSONResponseError e
        then Return None else Raise e
    end /\
  Games (getGame cm gameId).2 = Games cm /\
  failure (getGame cm gameId).2 = failure cm.
Proof. rewrite getGame_run. repeat split. Qed.

Lemma createNewGame_run (cm : ConnectionManager)
  (gameId creator invitee now : string) :
  failure cm = None ->
  Games cm !! gameId = None ->
  exists record : gmap string string,
    createNewGame cm gameId creator invitee now =
      (Return true,
       with_games (<[gameId := record]> (Games cm)) (sent (PutItem record) cm))
    /\ record !! "GameId" = Some gameId
    /\ record !! "HostId" = Some creator
    /\ record !! "StatusDate" = Some ("PENDING_" +:+ now)
    /\ record !! "OUser" = Some creator
    /\ record !! "Turn" = Some invitee
    /\ record !! "OpponentId" = Some invitee
    /\ record !! "Result" = None
    /\ (forall square, In square squares -> record !! square = None).
Proof.
  intros Hup Hnew. unfold createNewGame, Item_save_new.
  change (failure (sent ?c cm)) with (failure cm). cbv zeta.
  cbn [Games sent]. rewrite Hup.
  rewrite lookup_insert_ne, lookup_insert_ne, lookup_insert_ne,
    lookup_insert_ne, lookup_insert_ne, lookup_insert_eq by discriminate.
  rewrite Hnew.
  eexists. split; [reflexivity |].
  repeat split; simplify_map_eq; try reflexivity.
  intros square Hsq.
  destruct (squares_names square Hsq) as (H1 & H2 & H3 & H4 & H5 & H6).
  rewrite !lookup_insert_ne by congruence. apply lookup_empty.
Qed.

(** X2: on a reachable store that holds no game under [gameId] yet, the
    game that [createNewGame] has written is the one [getGame] reads back
    under its key, with the six attributes of the invitation and no Result;
    what [getGame] answers for any other key is what it answered before. *)
Theorem createNewGame_then_getGame (cm : ConnectionManager)
  (gameId creator invitee now : string) :
  failure cm = None ->
  Games cm !! gameId = None ->
  let cm1 := (createNewGame cm gameId creator invitee now).2 in
  (exists record : gmap string string,
     (getGame cm1 gameId).1 = Return (Some record) /\
     record !! "GameId" = Some gameId /\
     record !! "HostId" = Some creator /\
     record !! "StatusDate" = Some ("PENDING_" +:+ now) /\
     record !! "OUser" = Some creator /\
     record !! "Turn" = Some invitee /\
     record !! "OpponentId" = Some invitee /\
     record !! "Result" = None) /\
  (forall other : string,
     other <> gameId -> (getGame cm1 other).1 = (getGame cm other).1).
Proof.
  intros Hup Hnew cm1.
  destruct (createNewGame_run cm gameId creator invitee now Hup Hnew)
    as (record & Hrun & Hrec).
  subst cm1. rewrite Hrun. cbn [snd]. split.
  - destruct Hrec as (H1 & H2 & H3 & H4 & H5 & H6 & H7 & _).
    exists record. split; [| repeat split; assumption].
    rewrite getGame_run. cbn [fst failure Games with_games sent].
    rewrite Hup, lookup_insert_eq. reflexivity.
  - intros other Hother. rewrite !getGame_run.
    cbn [fst failure Games with_games sent].
    rewrite Hup, lookup_insert_ne by congruence. reflexivity.
Qed.

Lemma createNewGame_then_getGame_witness :
  failure playing = None /\
  Games playing !! "g2" = None /\
  let cm1 := (createNewGame playing "g2" "carol" "dave" "2014-11-04").2 in
  (exists record : gmap string string,
     (getGame cm1 "g2").1 = Return (Some record) /\
     record !! "GameId" = Some "g2" /\
     record !! "HostId" = Some "carol" /\
     record !! "StatusDate" = Some ("PENDING_" +:+ "2014-11-04") /\
     record !! "OUser" = Some "carol" /\
     record !! "Turn" = Some "dave" /\
     record !! "OpponentId" = Some "dave" /\
     record !! "Result" = None) /\
  (forall other : string,
     other <> "g2" -> (getGame cm1 other).1 = (getGame playing other).1).
Proof.
  split; [reflexivity |]. split; [reflexivity |].
  apply (createNewGame_then_getGame playing "g2" "carol" "dave"
           "2014-11-04"); reflexivity.
Defined.

(** ** Resolving an invitation *)

Lemma put_all_singleton (old : gmap string string) (k v : string) :
  put_all (<[k := Some v]> ∅) old = <[k := v]> old.
Proof.
  apply map_eq. intros j. unfold put_all.
  rewrite lookup_union, lookup_omap.
  destruct (decide (j = k)) as [-> | Hne].
  - rewrite !lookup_insert_eq. simpl. destruct (old !! k); reflexivity.
  - rewrite !lookup_insert_ne, lookup_empty by congruence. simpl.
    destruct (old !! j); reflexivity.
Qed.

Lemma valid_updates_StatusDate (v : string) :
  valid_updates (<["StatusDate" := Some v]> ∅) = true.
Proof.
  apply valid_updates_spec. intros k w Hk.
  apply lookup_insert_Some in Hk as [[<- <-] | [_ Hk]].
  - split; [eauto | discriminate].
  - rewrite lookup_empty in Hk. discriminate.
Qed.

(** What [acceptGameInvite] does, by the state of the service and of the
    stored record. *)
Lemma acceptGameInvite_run (cm : ConnectionManager)
  (game : gmap string string) (now gameId : string) :
  game !! "GameId" = Some gameId ->
  acceptGameInvite cm game now =
    let cm1 := sent (UpdateItem (Some gameId)) cm in
    match failure cm with
    | Some e =>
        (if bool_decide (e = ConditionalCheckFailedException)
         then Return false else Raise e, cm1)
    | None =>
        match Games cm !! gameId with
        | Some old =>
            if begins_with (old !! "StatusDate") "PENDING_" then
              (Return true,
               with_games
                 (<[gameId := <["StatusDate" := "IN_PROGRESS_" +:+ now]> old]>
                    (Games cm)) cm1)
            else (Return false, cm1)
        | None => (Return false, cm1)
        end
    end.
Proof.
  intros Hkey. unfold acceptGameInvite, update_item. rewrite Hkey.
  change (failure (sent (UpdateItem (Some gameId)) cm)) with (failure cm).
  change (Games (sent (UpdateItem (Some gameId)) cm)) with (Games cm).
  cbv zeta.
  destruct (failure cm) as [e |].
  { destruct (bool_decide (e = ConditionalCheckFailedException));
      reflexivity. }
  rewrite valid_updates_StatusDate, check_singleton.
  destruct (Games cm !! gameId) as [old |]; simpl.
  - destruct (begins_with (old !! "StatusDate") "PENDING_").
    + rewrite put_all_singleton. reflexivity.
    + reflexivity.
  - rewrite lookup_empty. reflexivity.
Qed.

Lemma rejectGameInvite_run (cm : ConnectionManager)
  (game : gmap string string) (gameId : string) :
  game !! "GameId" = Some gameId ->
  rejectGameInvite cm game =
    let cm1 := sent (DeleteItem (Some gameId)) cm in
    match failure cm with
    | Some e =>
        (if isinstance_Exception e then Return false else Raise e, cm1)
    | None =>
        if begins_with (default ∅ (Games cm !! gameId) !! "StatusDate")
             "PENDING_"
        then (Return true, with_games (delete gameId (Games cm)) cm1)
        else (Return false, cm1)
    end.
Proof.
  intros Hkey. unfold rejectGameInvite, delete_item. rewrite Hkey.
  change (failure (sent (DeleteItem (Some gameId)) cm)) with (failure cm).
  change (Games (sent (DeleteItem (Some gameId)) cm)) with (Games cm).
  cbv zeta.
  destruct (failure cm) as [e |].
  { destruct (isinstance_Exception e); reflexivity. }
  rewrite check_singleton. simpl.
  destruct (begins_with _ _); reflexivity.
Qed.

Lemma IN_PROGRESS_not_PENDING (now : string) :
  begins_with (Some ("IN_PROGRESS_" +:+ now)) "PENDING_" = false.
Proof. reflexivity. Qed.

(** X3: an invitation is resolved once.  After [acceptGameInvite] has
    returned [True] for a game, accepting it again and rejecting it both
    return [False] and leave the table as it is, whatever the times and the
    snapshots passed. *)
Theorem accepted_invite_is_resolved (cm cm1 : ConnectionManager)
  (game game' : gmap string string) (now now' gameId : string) :
  game !! "GameId" = Some gameId ->
  game' !! "GameId" = Some gameId ->
  acceptGameInvite cm game now = (Return true, cm1) ->
  (acceptGameInvite cm1 game' now').1 = Return false /\
  Games (acceptGameInvite cm1 game' now').2 = Games cm1 /\
  (rejectGameInvite cm1 game').1 = Return false /\
  Games (rejectGameInvite cm1 game').2 = Games cm1.
Proof.
  intros Hkey Hkey' Haccept.
  rewrite (acceptGameInvite_run cm game now gameId Hkey) in Haccept.
  cbv zeta in Haccept.
  destruct (failure cm) as [e |] eqn:Hup.
  { case_bool_decide; discriminate. }
  destruct (Games cm !! gameId) as [old |]; [| discriminate].
  destruct (begins_with (old !! "StatusDate") "PENDING_"); [| discriminate].
  injection Haccept as <-.
  rewrite (acceptGameInvite_run _ game' now' gameId Hkey').
  rewrite (rejectGameInvite_run _ game' gameId Hkey').
  cbn [failure Games with_games sent]. rewrite Hup.
  rewrite lookup_insert_eq. cbn [default from_option id].
  rewrite !lookup_insert_eq, !IN_PROGRESS_not_PENDING.
  repeat split.
Qed.

Lemma accepted_invite_is_resolved_witness :
  pending_game !! "GameId" = Some "g1" /\
  in_progress_game !! "GameId" = Some "g1" /\
  acceptGameInvite created pending_game "2014-11-05"
    = (Return true, accepted) /\
  (acceptGameInvite accepted in_progress_game "2014-11-06").1
    = Return false /\
  Games (acceptGameInvite accepted in_progress_game "2014-11-06").2
    = Games accepted /\
  (rejectGameInvite accepted in_progress_game).1 = Return false /\
  Games (rejectGameInvite accepted in_progress_game).2 = Games accepted.
Proof.
  split; [reflexivity |]. split; [reflexivity |]. split; [reflexivity |].
  apply (accepted_invite_is_resolved created accepted pending_game
           in_progress_game "2014-11-05" "2014-11-06" "g1"); reflexivity.
Defined.

Lemma move_on_missing_or_closed (cm : ConnectionManager)
  (item : gmap string string) (position current_player gameId : string) :
  failure cm = None -> game_record item ->
  item !! "GameId" = Some gameId -> In position squares ->
  begins_with (default ∅ (Games cm !! gameId) !! "StatusDate")
    "IN_PROGRESS_" = false ->
  updateBoardAndTurn cm item position current_player
    = (Return false, sent (UpdateItem (Some gameId)) cm).
Proof.
  intros Hup Hrec Hkey Hpos Hclosed.
  destruct (squares_names position Hpos) as (Hturn & Hstatus & _).
  rewrite (updateBoardAndTurn_game_record cm item position current_player
             gameId Hup Hrec Hkey Hpos).
  cbv zeta.
  destruct (check _ _) eqn:Hcheck; [| reflexivity].
  apply check_move in Hcheck as (Hs & _); [| exact Hturn | exact Hstatus].
  rewrite Hs in Hclosed. discriminate.
Qed.

(** X4: a rejected invitation is gone.  When [rejectGameInvite] returns
    [True] the record was stored and pending and is deleted, the other
    games staying; from then on [getGame] answers [None] for it, accepting
    or rejecting it again returns [False], and so does every move on it. *)
Theorem rejected_invite_is_gone (cm cm1 : ConnectionManager)
  (game : gmap string string) (gameId : string) :
  game !! "GameId" = Some gameId ->
  rejectGameInvite cm game = (Return true, cm1) ->
  (exists old : gmap string string,
     Games cm !! gameId = Some old /\
     begins_with (old !! "StatusDate") "PENDING_" = true) /\
  Games cm1 = delete gameId (Games cm) /\
  (getGame cm1 gameId).1 = Return None /\
  (forall (game' : gmap string string) (now : string),
     game' !! "GameId" = Some gameId ->
     (acceptGameInvite cm1 game' now).1 = Return false /\
     (rejectGameInvite cm1 game').1 = Return false) /\
  (forall (item : gmap string string) (position current_player : string),
     game_record item -> item !! "GameId" = Some gameId ->
     In position squares ->
     (updateBoardAndTurn cm1 item position current_player).1 = Return false).
Proof.
  intros Hkey Hreject.
  rewrite (rejectGameInvite_run cm game gameId Hkey) in Hreject.
  cbv zeta in Hreject.
  destruct (failure cm) as [e |] eqn:Hup.
  { destruct (isinstance_Exception e); discriminate. }
  destruct (begins_with _ _) eqn:Hpending; [| discriminate].
  injection Hreject as <-.
  split.
  { destruct (Games cm !! gameId) as [old |]; [eauto |].
    simpl in Hpending. rewrite lookup_empty in Hpending. discriminate. }
  split; [reflexivity |].
  split.
  { rewrite getGame_run. cbn [fst failure Games with_games sent].
    rewrite Hup, lookup_delete_eq. reflexivity. }
  split.
  - intros game' now Hkey'.
    rewrite (acceptGameInvite_run _ game' now gameId Hkey').
    rewrite (rejectGameInvite_run _ game' gameId Hkey').
    cbn [failure Games with_games sent]. rewrite Hup, lookup_delete_eq.
    cbn [default from_option]. rewrite lookup_empty. split; reflexivity.
  - intros item position current_player Hrec Hkey' Hpos.
    rewrite (move_on_missing_or_closed _ item position current_player gameId);
      try assumption; try reflexivity.
    cbn [Games with_games sent]. rewrite lookup_delete_eq. reflexivity.
Qed.

Lemma rejected_invite_is_gone_witness :
  pending_game !! "GameId" = Some "g1" /\
  rejectGameInvite created pending_game
    = (Return true, (rejectGameInvite created pending_game).2) /\
  (exists old : gmap string string,
     Games created !! "g1" = Some old /\
     begins_with (old !! "StatusDate") "PENDING_" = true) /\
  Games (rejectGameInvite created pending_game).2
    = delete "g1" (Games created) /\
  (getGame (rejectGameInvite created pending_game).2 "g1").1 = Return None /\
  (forall (game' : gmap string string) (now : string),
     game' !! "GameId" = Some "g1" ->
     (acceptGameInvite (rejectGameInvite created pending_game).2 game' now).1
       = Return false /\
     (rejectGameInvite (rejectGameInvite created pending_game).2 game').1
       = Return false) /\
  (forall (item : gmap string string) (position current_player : string),
     game_record item -> item !! "GameId" = Some "g1" ->
     In position squares ->
     (updateBoardAndTurn (rejectGameInvite created pending_game).2 item
        position current_player).1 = Return false).
Proof.
  split; [reflexivity |]. split; [reflexivity |].
  apply (rejected_invite_is_gone created
           (rejectGameInvite created pending_game).2 pending_game "g1");
    reflexivity.
Defined.

(** ** Moves *)

Lemma split_without (sep : ascii) (s : string) :
  occurs sep s = false -> split sep s = [s].
Proof.
  induction s as [| c s IH]; simpl; [reflexivity |].
  destruct (Ascii.eqb c sep); simpl; [discriminate |].
  intros Hs. rewrite (IH Hs). reflexivity.
Qed.

Lemma split_with (sep : ascii) (s : string) :
  occurs sep s = true -> is_Some (split sep s !! 1%nat).
Proof.
  induction s as [| c s IH]; simpl; [discriminate |].
  destruct (Ascii.eqb c sep); simpl.
  - intros _. destruct (split sep s) eqn:E; [| eauto].
    exfalso. exact (split_nonempty _ _ E).
  - intros Hs. destruct (split sep s) eqn:E.
    + exfalso. exact (split_nonempty _ _ E).
    + exact (IH Hs).
Qed.

Lemma update_item_calls (cm : ConnectionManager) (key : pyval)
  (attribute_updates : gmap string pyval)
  (expected : gmap string Expectation) :
  calls (update_item cm key attribute_updates expected).2
    = UpdateItem key :: calls cm.
Proof.
  unfold update_item. cbv zeta. cbn [failure sent].
  destruct (failure cm); [reflexivity |].
  destruct key; [| reflexivity].
  destruct (valid_updates _); [| reflexivity].
  destruct (check _ _); reflexivity.
Qed.

(** X5: the preamble of [updateBoardAndTurn] fails before any request is
    sent when the item passed has no usable StatusDate: [AttributeError]
    when the attribute is absent ([None.split]), [IndexError] when it holds
    no underscore (element 1 of a one-element split).  With an underscore
    in it, exactly one update request goes to the store. *)
Theorem updateBoardAndTurn_StatusDate_of_item (cm : ConnectionManager)
  (item : gmap string string) (position current_player : string) :
  match item !! "StatusDate" with
  | None =>
      updateBoardAndTurn cm item position current_player
        = (Raise AttributeError, cm)
  | Some statusDate =>
      if occurs "_" statusDate then
        calls (updateBoardAndTurn cm item position current_player).2
          = UpdateItem (item !! "GameId") :: calls cm
      else
        updateBoardAndTurn cm item position current_player
          = (Raise IndexError, cm)
  end.
Proof.
  unfold updateBoardAndTurn.
  destruct (item !! "StatusDate") as [statusDate |]; [| reflexivity].
  destruct (occurs "_" statusDate) eqn:Hocc.
  - destruct (split_with "_" statusDate Hocc) as [date ->].
    match goal with
    | |- context [update_item ?c ?k ?u ?e] =>
        pose proof (update_item_calls c k u e) as Hcalls;
        destruct (update_item c k u e) as [[u' | e'] cm']
    end; simpl in *.
    + exact Hcalls.
    + destruct (bool_decide (e' = ConditionalCheckFailedException));
        exact Hcalls.
  - rewrite (split_without "_" statusDate Hocc). reflexivity.
Qed.

Lemma update_item_Raise (cm : ConnectionManager) (key : pyval)
  (attribute_updates : gmap string pyval)
  (expected : gmap string Expectation) (e : exn) :
  (update_item cm key attribute_updates expected).1 = Raise e ->
  Games (update_item cm key attribute_updates expected).2 = Games cm.
Proof.
  unfold update_item. cbv zeta. cbn [failure sent Games].
  destruct (failure cm); [reflexivity |].
  destruct key; [| reflexivity].
  destruct (valid_updates _); [| reflexivity].
  destruct (check _ _); [discriminate | reflexivity].
Qed.

Lemma updateBoardAndTurn_not_True (cm : ConnectionManager)
  (item : gmap string string) (position current_player : string) :
  (updateBoardAndTurn cm item position current_player).1 <> Return true ->
  Games (updateBoardAndTurn cm item position current_player).2 = Games cm.
Proof.
  unfold updateBoardAndTurn.
  destruct (item !! "StatusDate") as [statusDate |]; [| reflexivity].
  destruct (split "_" statusDate !! 1%nat) as [date |]; [| reflexivity].
  match goal with
  | |- context [update_item ?c ?k ?u ?e] =>
      pose proof (update_item_Raise c k u e) as Hraise;
      destruct (update_item c k u e) as [[u' | e'] cm']
  end; simpl in *.
  - intros H. exfalso. apply H. reflexivity.
  - intros _. destruct (bool_decide (e' = ConditionalCheckFailedException));
      apply (Hraise e'); reflexivity.
Qed.

(** X6: no call of [updateBoardAndTurn] on a square, whatever it returns
    or raises, takes anything away: every stored game stays stored, no
    game is added, and every attribute that is set, Turn apart, keeps its
    value.  So a square once marked is never overwritten, and GameId,
    HostId, OpponentId, OUser and StatusDate never change by a move. *)
Theorem updateBoardAndTurn_keeps_what_is_set (cm : ConnectionManager)
  (item : gmap string string) (position current_player : string)
  (gameId attribute value : string) (record : gmap string string) :
  In position squares ->
  Games cm !! gameId = Some record ->
  record !! attribute = Some value ->
  attribute <> "Turn" ->
  let cm' := (updateBoardAndTurn cm item position current_player).2 in
  dom (Games cm') = dom (Games cm) /\
  exists record' : gmap string string,
    Games cm' !! gameId = Some record' /\
    record' !! attribute = Some value.
Proof.
  intros Hpos Hrec Hattr Hturn cm'. subst cm'.
  destruct (updateBoardAndTurn cm item position current_player)
    as [[[|] | e] cm'] eqn:Hrun.
  - destruct (updateBoardAndTurn_True cm cm' item position current_player
                Hpos Hrun)
      as (gameId' & next & old & _ & _ & Hold & Hguard & ->).
    cbn [snd Games with_games]. split.
    { apply dom_insert_lookup_L. eauto. }
    destruct (decide (gameId = gameId')) as [<- | Hne].
    + rewrite Hrec in Hold. injection Hold as <-.
      eexists. rewrite lookup_insert_eq. split; [reflexivity |].
      rewrite put_all_move.
      rewrite bool_decide_eq_false_2 by assumption.
      destruct Hguard as (_ & _ & Hfree).
      rewrite bool_decide_eq_false_2 by congruence. exact Hattr.
    + exists record. rewrite lookup_insert_ne by congruence.
      split; assumption.
  - pose proof (updateBoardAndTurn_not_True cm item position current_player)
      as Hsame. rewrite Hrun in Hsame. cbn [fst snd] in *.
    rewrite Hsame by discriminate. split; [reflexivity | eauto].
  - pose proof (updateBoardAndTurn_not_True cm item position current_player)
      as Hsame. rewrite Hrun in Hsame. cbn [fst snd] in *.
    rewrite Hsame by discriminate. split; [reflexivity | eauto].
Qed.

Lemma updateBoardAndTurn_keeps_what_is_set_witness :
  In "MiddleMiddle" squares /\
  Games after_first_move !! "g1"
    = Some (<["Turn" := "alice"]> (<["TopLeft" := "X"]> in_progress_game)) /\
  <["Turn" := "alice"]> (<["TopLeft" := "X"]> in_progress_game) !! "TopLeft"
    = Some "X" /\
  "TopLeft" <> "Turn" /\
  let cm' := (updateBoardAndTurn after_first_move in_progress_game
                "MiddleMiddle" "alice").2 in
  dom (Games cm') = dom (Games after_first_move) /\
  exists record' : gmap string string,
    Games cm' !! "g1" = Some record' /\
    record' !! "TopLeft" = Some "X".
Proof.
  split; [do 4 right; left; reflexivity |].
  split; [vm_compute; reflexivity |].
  split; [reflexivity |]. split; [discriminate |].
  apply (updateBoardAndTurn_keeps_what_is_set after_first_move
           in_progress_game "MiddleMiddle" "alice" "g1" "TopLeft" "X"
           (<["Turn" := "alice"]> (<["TopLeft" := "X"]> in_progress_game)));
    [do 4 right; left; reflexivity | vm_compute; reflexivity | reflexivity
    | discriminate].
Defined.

(** ** The board *)

Lemma boardLoop_map (rest : list string) (item : gmap string string)
  (state : list string) :
  boardLoop rest item state = (state ++ map (cell item) rest)%list.
Proof.
  revert state. induction rest as [| square rest IH]; intros state; simpl.
  - rewrite app_nil_r. reflexivity.
  - unfold cell at 1. destruct (item !! square);
      rewrite IH, <- app_assoc; reflexivity.
Qed.

Lemma getBoardState_map (item : gmap string string) :
  getBoardState item = map (cell item) squares.
Proof. unfold getBoardState. rewrite boardLoop_map. reflexivity. Qed.

Lemma map_replace (f g : string -> string) (p m : string) :
  g p = m ->
  forall (l : list string) (i : nat),
    (forall x, In x l -> x <> p -> g x = f x) ->
    NoDup l -> l !! i = Some p ->
    map g l = <[i := m]> (map f l).
Proof.
  intros Hp. induction l as [| x l IH]; intros i Hother Hnd Hi;
    [discriminate |].
  apply NoDup_cons in Hnd as [Hx Hnd].
  destruct i as [| i]; simpl in *.
  - injection Hi as ->. rewrite Hp. f_equal.
    apply map_ext_in. intros y Hy. apply Hother; [right; exact Hy |].
    intros ->. apply Hx, list_elem_of_In. exact Hy.
  - rewrite (IH i); [| intros y Hy; apply Hother; right; exact Hy
                     | exact Hnd | exact Hi].
    f_equal. apply Hother; [left; reflexivity |]. intros ->.
    apply Hx. apply list_elem_of_lookup. eauto.
Qed.

Lemma NoDup_squares : NoDup squares.
Proof.
  apply (bool_decide_unpack _). vm_compute. exact I.
Qed.

(** X7: the board follows the move.  [getBoardState] gives nine values;
    when [updateBoardAndTurn] returns [True], the board of the stored
    record showed a blank at the square played and the board of the new
    record is the old one with the mark of the player at that place, "O"
    for the OUser of the record passed and "X" otherwise. *)
Theorem getBoardState_after_move (cm cm' : ConnectionManager)
  (item : gmap string string) (position current_player : string) :
  In position squares ->
  updateBoardAndTurn cm item position current_player = (Return true, cm') ->
  exists (gameId : string) (old new : gmap string string) (i : nat),
    item !! "GameId" = Some gameId /\
    Games cm !! gameId = Some old /\
    Games cm' !! gameId = Some new /\
    squares !! i = Some position /\
    getBoardState old !! i = Some " " /\
    getBoardState new =
      <[i := if bool_decide (item !! "OUser" = Some current_player)
             then "O" else "X"]> (getBoardState old) /\
    length (getBoardState new) = 9%nat.
Proof.
  intros Hpos Hrun.
  destruct (updateBoardAndTurn_True cm cm' item position current_player
              Hpos Hrun)
    as (gameId & next & old & Hkey & _ & Hold & Hguard & ->).
  destruct Hguard as (_ & _ & Hfree).
  destruct (squares_names position Hpos) as (Hturn & _).
  destruct (proj1 (list_elem_of_lookup squares position)
              (proj2 (list_elem_of_In squares position) Hpos)) as [i Hi].
  eexists gameId, old, _, i.
  split; [exact Hkey |]. split; [exact Hold |].
  split; [cbn [Games with_games]; apply lookup_insert_eq |].
  split; [exact Hi |].
  rewrite !getBoardState_map. split.
  { rewrite list_lookup_fmap, Hi. simpl. unfold cell. rewrite Hfree.
    reflexivity. }
  split; [| rewrite length_map; reflexivity].
  apply (map_replace (cell old) _ position);
    [| | exact NoDup_squares | exact Hi].
  - unfold cell. rewrite put_all_move.
    rewrite bool_decide_eq_false_2 by assumption.
    rewrite bool_decide_eq_true_2 by reflexivity. reflexivity.
  - intros sq Hin Hsq. unfold cell. rewrite put_all_move.
    destruct (squares_names sq Hin) as (Hsqturn & _).
    rewrite !bool_decide_eq_false_2 by assumption. reflexivity.
Qed.

Lemma getBoardState_after_move_witness :
  In "TopLeft" squares /\
  updateBoardAndTurn playing in_progress_game "TopLeft" "bob"
    = (Return true, after_first_move) /\
  exists (gameId : string) (old new : gmap string string) (i : nat),
    in_progress_game !! "GameId" = Some gameId /\
    Games playing !! gameId = Some old /\
    Games after_first_move !! gameId = Some new /\
    squares !! i = Some "TopLeft" /\
    getBoardState old !! i = Some " " /\
    getBoardState new =
      <[i := if bool_decide (in_progress_game !! "OUser" = Some "bob")
             then "O" else "X"]> (getBoardState old) /\
    length (getBoardState new) = 9%nat.
Proof.
  split; [left; reflexivity |]. split; [reflexivity |].
  apply (getBoardState_after_move playing after_first_move in_progress_game
           "TopLeft" "bob"); [left; reflexivity | reflexivity].
Defined.

(** ** The end of a game *)

Lemma changeGameToFinishedState_run (cm : ConnectionManager)
  (item : gmap string string) (result : pyval)
  (current_user now : string) :
  item !! "Result" = None ->
  changeGameToFinishedState cm item result current_user now =
    ((Item_save cm (finished item result current_user now)).1,
     finished item result current_user now,
     (Item_save cm (finished item result current_user now)).2).
Proof.
  intros Hres. unfold changeGameToFinishedState.
  rewrite Hres, bool_decide_eq_false_2 by (intros H; apply H; reflexivity).
  fold (finished item result current_user now).
  destruct (Item_save cm (finished item result current_user now));
    reflexivity.
Qed.

Lemma changeGameToFinishedState_done (cm : ConnectionManager)
  (item : gmap string string) (result : pyval)
  (current_user now : string) :
  is_Some (item !! "Result") ->
  changeGameToFinishedState cm item result current_user now
    = (Return true, item, cm).
Proof.
  intros [winner Hres]. unfold changeGameToFinishedState.
  rewrite Hres, bool_decide_eq_true_2 by discriminate. reflexivity.
Qed.

Lemma finished_lookup (item : gmap string string) (result : pyval)
  (current_user now : string) (k : string) :
  finished item result current_user now !! k =
    if bool_decide (k = "Result") then
      if bool_decide (result = Some "Tie") then Some "Tie"
      else if bool_decide (result = Some "Win") then Some current_user
      else if bool_decide (item !! "HostId" = Some current_user)
           then item !! "OpponentId" else item !! "HostId"
    else if bool_decide (k = "Turn") then Some "N/A"
    else if bool_decide (k = "StatusDate") then Some ("FINISHED_" +:+ now)
    else item !! k.
Proof.
  unfold finished. cbv zeta.
  assert (Hhost : setitem (setitem item "StatusDate"
                             (Some ("FINISHED" +:+ "_" +:+ now)))
                    "Turn" (Some "N/A") !! "HostId" = item !! "HostId")
    by (simpl; simplify_map_eq; reflexivity).
  assert (Hopp : setitem (setitem item "StatusDate"
                            (Some ("FINISHED" +:+ "_" +:+ now)))
                   "Turn" (Some "N/A") !! "OpponentId" = item !! "OpponentId")
    by (simpl; simplify_map_eq; reflexivity).
  rewrite Hhost, Hopp.
  repeat case_bool_decide; subst; unfold setitem;
    repeat case_match; simplify_map_eq; try reflexivity; congruence.
Qed.

Lemma finished_game_record (item : gmap string string) (result : pyval)
  (current_user now : string) :
  game_record item ->
  game_record (finished item result current_user now) /\
  is_Some (finished item result current_user now !! "Result").
Proof.
  intros (Hgid & Hhost & Hopp & _). unfold game_record.
  rewrite !finished_lookup.
  rewrite !(bool_decide_eq_false_2 ("GameId" = _)) by discriminate.
  rewrite !(bool_decide_eq_false_2 ("HostId" = _)) by discriminate.
  rewrite !(bool_decide_eq_false_2 ("OpponentId" = _)) by discriminate.
  rewrite !(bool_decide_eq_false_2 ("StatusDate" = "Result")) by discriminate.
  rewrite !(bool_decide_eq_false_2 ("StatusDate" = "Turn")) by discriminate.
  rewrite !(bool_decide_eq_true_2 (_ = _)) by reflexivity.
  split.
  - repeat split; try assumption. exists "FINISHED", now. reflexivity.
  - repeat case_bool_decide; eauto.
Qed.

(** X8: a finished game is closed.  On a reachable store,
    [changeGameToFinishedState] on a game record without Result returns
    [True] after one put and stores the finished record; from then on no
    move on a square, by anyone, is accepted, the invitation can be neither
    accepted nor rejected, and finishing again, with whatever outcome,
    player and time, returns [True] and changes neither the item nor the
    store. *)
Theorem finished_game_is_closed (cm : ConnectionManager)
  (item : gmap string string) (result : pyval)
  (current_user now gameId : string) :
  failure cm = None -> game_record item ->
  item !! "GameId" = Some gameId -> item !! "Result" = None ->
  exists (item' : gmap string string) (cm' : ConnectionManager),
    changeGameToFinishedState cm item result current_user now
      = (Return true, item', cm') /\
    Games cm' !! gameId = Some item' /\
    calls cm' = PutItem item' :: calls cm /\
    (forall position player : string,
       In position squares ->
       (updateBoardAndTurn cm' item' position player).1 = Return false) /\
    (forall (game : gmap string string) (now' : string),
       game !! "GameId" = Some gameId ->
       (acceptGameInvite cm' game now').1 = Return false /\
       (rejectGameInvite cm' game).1 = Return false) /\
    (forall (result' : pyval) (player now' : string),
       changeGameToFinishedState cm' item' result' player now'
         = (Return true, item', cm')).
Proof.
  intros Hup Hrec Hkey Hres.
  destruct (finished_game_record item result current_user now Hrec)
    as [Hrec' Hres'].
  assert (Hkey' : finished item result current_user now !! "GameId"
                  = Some gameId).
  { rewrite finished_lookup.
    rewrite !bool_decide_eq_false_2 by discriminate. exact Hkey. }
  assert (Hsd : finished item result current_user now !! "StatusDate"
                = Some ("FINISHED_" +:+ now)).
  { rewrite finished_lookup.
    rewrite !(bool_decide_eq_false_2 ("StatusDate" = "Result")) by discriminate.
    rewrite !(bool_decide_eq_false_2 ("StatusDate" = "Turn")) by discriminate.
    rewrite bool_decide_eq_true_2 by reflexivity. reflexivity. }
  rewrite (changeGameToFinishedState_run cm item result current_user now Hres).
  unfold Item_save. cbv zeta. cbn [failure sent]. rewrite Hup, Hkey'.
  cbn [fst snd].
  eexists _, _. split; [reflexivity |].
  cbn [Games calls with_games sent].
  split; [apply lookup_insert_eq |]. split; [reflexivity |].
  split; [| split].
  - intros position player Hpos.
    rewrite (move_on_missing_or_closed _ _ position player gameId);
      try assumption; try reflexivity.
    cbn [Games with_games sent]. rewrite lookup_insert_eq.
    cbn [default from_option id]. rewrite Hsd. reflexivity.
  - intros game now' Hgame.
    rewrite (acceptGameInvite_run _ game now' gameId Hgame).
    rewrite (rejectGameInvite_run _ game gameId Hgame).
    cbn [failure Games with_games sent]. rewrite Hup, lookup_insert_eq.
    cbn [default from_option id]. rewrite Hsd. split; reflexivity.
  - intros result' player now'.
    apply changeGameToFinishedState_done. exact Hres'.
Qed.

Lemma finished_game_is_closed_witness :
  failure playing = None /\ game_record in_progress_game /\
  in_progress_game !! "GameId" = Some "g1" /\
  in_progress_game !! "Result" = None /\
  exists (item' : gmap string string) (cm' : ConnectionManager),
    changeGameToFinishedState playing in_progress_game (Some "Win") "bob"
      "2014-11-06" = (Return true, item', cm') /\
    Games cm' !! "g1" = Some item' /\
    calls cm' = PutItem item' :: calls playing /\
    (forall position player : string,
       In position squares ->
       (updateBoardAndTurn cm' item' position player).1 = Return false) /\
    (forall (game : gmap string string) (now' : string),
       game !! "GameId" = Some "g1" ->
       (acceptGameInvite cm' game now').1 = Return false /\
       (rejectGameInvite cm' game).1 = Return false) /\
    (forall (result' : pyval) (player now' : string),
       changeGameToFinishedState cm' item' result' player now'
         = (Return true, item', cm')).
Proof.
  split; [reflexivity |]. split; [exact in_progress_game_record |].
  split; [reflexivity |]. split; [reflexivity |].
  apply (finished_game_is_closed playing in_progress_game (Some "Win") "bob"
           "2014-11-06" "g1");
    [reflexivity | exact in_progress_game_record | reflexivity | reflexivity].
Defined.

(** X9: the item is marked before it is saved.  When the store fails,
    [changeGameToFinishedState] raises the failure and the table is as it
    was, but the item passed already carries its Result; a later call with
    that item, on whatever store, returns [True] without sending anything,
    so the same item never gets the finished state stored. *)
Theorem failed_finish_marks_item (cm : ConnectionManager)
  (item : gmap string string) (result : pyval)
  (current_user now : string) (e : exn) :
  failure cm = Some e -> game_record item -> item !! "Result" = None ->
  exists item' : gmap string string,
    changeGameToFinishedState cm item result current_user now
      = (Raise e, item', sent (PutItem item') cm) /\
    is_Some (item' !! "Result") /\
    forall (cm2 : ConnectionManager) (result' : pyval) (player now' : string),
      changeGameToFinishedState cm2 item' result' player now'
        = (Return true, item', cm2).
Proof.
  intros Hdown Hrec Hres.
  destruct (finished_game_record item result current_user now Hrec)
    as [_ Hres'].
  rewrite (changeGameToFinishedState_run cm item result current_user now Hres).
  unfold Item_save. cbv zeta. cbn [failure sent]. rewrite Hdown.
  cbn [fst snd].
  eexists. split; [reflexivity |]. split; [exact Hres' |].
  intros cm2 result' player now'.
  apply changeGameToFinishedState_done. exact Hres'.
Qed.

Lemma failed_finish_marks_item_witness :
  failure unreachable = Some IOError /\ game_record in_progress_game /\
  in_progress_game !! "Result" = None /\
  exists item' : gmap string string,
    changeGameToFinishedState unreachable in_progress_game (Some "Win") "bob"
      "2014-11-06" = (Raise IOError, item', sent (PutItem item') unreachable) /\
    is_Some (item' !! "Result") /\
    forall (cm2 : ConnectionManager) (result' : pyval) (player now' : string),
      changeGameToFinishedState cm2 item' result' player now'
        = (Return true, item', cm2).
Proof.
  split; [reflexivity |]. split; [exact in_progress_game_record |].
  split; [reflexivity |].
  apply (failed_finish_marks_item unreachable in_progress_game (Some "Win")
           "bob" "2014-11-06" IOError);
    [reflexivity | exact in_progress_game_record | reflexivity].
Defined.

(** ** From the invitation to the first move *)

Lemma PENDING_begins (now : string) :
  begins_with (Some ("PENDING_" +:+ now)) "PENDING_" = true.
Proof. simpl. destruct now; reflexivity. Qed.

(** X10: play starts with the acceptance, and with the invitee.  On a
    reachable store that holds no game under [gameId] yet, for a creator
    and an invitee that differ: the game is created; while it is pending
    every move on a square is rejected, by whomever; the invitation can be
    accepted; and on the accepted game the move of the invitee on any
    square is applied while the move of the creator is rejected. *)
Theorem play_starts_with_acceptance (cm : ConnectionManager)
  (gameId creator invitee now now' position : string) :
  failure cm = None -> Games cm !! gameId = None ->
  creator <> invitee -> In position squares ->
  exists (cm1 cm2 : ConnectionManager) (pending started : gmap string string),
    createNewGame cm gameId creator invitee now = (Return true, cm1) /\
    Games cm1 !! gameId = Some pending /\
    (forall player : string,
       (updateBoardAndTurn cm1 pending position player).1 = Return false) /\
    acceptGameInvite cm1 pending now' = (Return true, cm2) /\
    Games cm2 !! gameId = Some started /\
    (updateBoardAndTurn cm2 started position invitee).1 = Return true /\
    (updateBoardAndTurn cm2 started position creator).1 = Return false.
Proof.
  intros Hup Hnew Hdiff Hpos.
  destruct (squares_names position Hpos) as (Hturn & Hstatus & _).
  destruct (createNewGame_run cm gameId creator invitee now Hup Hnew)
    as (record & Hrun & Hgid & Hhost & Hsd & Houser & Hturn' & Hopp & _
        & Hfree).
  assert (Hrec : game_record record).
  { unfold game_record. rewrite Hgid, Hhost, Hopp, Hsd.
    repeat split; eauto. exists "PENDING", now. reflexivity. }
  set (started := <["StatusDate" := "IN_PROGRESS_" +:+ now']> record).
  assert (Hrec' : game_record started).
  { unfold game_record, started.
    rewrite !lookup_insert_ne by discriminate. rewrite lookup_insert_eq.
    rewrite Hgid, Hhost, Hopp.
    repeat split; eauto. exists "IN", ("PROGRESS_" +:+ now'). reflexivity. }
  eexists _, _, record, started.
  split; [exact Hrun |].
  cbn [Games with_games sent].
  split; [apply lookup_insert_eq |].
  split.
  { intros player.
    rewrite (move_on_missing_or_closed _ record position player gameId);
      try assumption; try reflexivity.
    cbn [Games with_games sent]. rewrite lookup_insert_eq.
    cbn [default from_option id]. rewrite Hsd. reflexivity. }
  rewrite (acceptGameInvite_run _ record now' gameId Hgid).
  cbv zeta. cbn [failure Games with_games sent]. rewrite Hup.
  rewrite lookup_insert_eq, Hsd.
  rewrite PENDING_begins. split; [reflexivity |].
  cbn [Games with_games sent]. fold started.
  split; [apply lookup_insert_eq |].
  assert (Hmove : forall player,
            (updateBoardAndTurn
               (with_games (<[gameId := started]>
                              (<[gameId := record]> (Games cm)))
                  (sent (UpdateItem (Some gameId))
                     (with_games (<[gameId := record]> (Games cm))
                        (sent (PutItem record) cm))))
               started position player).1
            = Return (bool_decide (player = invitee))).
  { intros player.
    rewrite (updateBoardAndTurn_game_record _ started position player gameId);
      [| exact Hup | exact Hrec'
       | unfold started; rewrite lookup_insert_ne by discriminate; exact Hgid
       | exact Hpos].
    cbv zeta. cbn [Games with_games sent]. rewrite lookup_insert_eq.
    cbn [default from_option id].
    pose proof (check_move started position player Hturn Hstatus) as Hcheck.
    destruct (check started _) eqn:Hc.
    - destruct (proj1 Hcheck eq_refl) as (_ & Hplayer & _).
      unfold started in Hplayer.
      rewrite lookup_insert_ne in Hplayer by discriminate.
      rewrite Hturn' in Hplayer. injection Hplayer as ->.
      rewrite bool_decide_eq_true_2 by reflexivity. reflexivity.
    - case_bool_decide as Hplayer; [| reflexivity]. subst player.
      assert (Hguard : move_guard started position invitee).
      { unfold move_guard, started.
        rewrite lookup_insert_eq.
        rewrite !lookup_insert_ne by congruence.
        split; [simpl; destruct now'; reflexivity |].
        split; [exact Hturn' | apply Hfree; exact Hpos]. }
      apply Hcheck in Hguard. discriminate. }
  rewrite !Hmove. rewrite bool_decide_eq_true_2 by reflexivity.
  rewrite bool_decide_eq_false_2 by assumption. split; reflexivity.
Qed.

Lemma play_starts_with_acceptance_witness :
  failure playing = None /\ Games playing !! "g2" = None /\
  "carol" <> "dave" /\ In "TopLeft" squares /\
  exists (cm1 cm2 : ConnectionManager) (pending started : gmap string string),
    createNewGame playing "g2" "carol" "dave" "2014-11-04"
      = (Return true, cm1) /\
    Games cm1 !! "g2" = Some pending /\
    (forall player : string,
       (updateBoardAndTurn cm1 pending "TopLeft" player).1 = Return false) /\
    acceptGameInvite cm1 pending "2014-11-05" = (Return true, cm2) /\
    Games cm2 !! "g2" = Some started /\
    (updateBoardAndTurn cm2 started "TopLeft" "dave").1 = Return true /\
    (updateBoardAndTurn cm2 started "TopLeft" "carol").1 = Return false.
Proof.
  split; [reflexivity |]. split; [reflexivity |]. split; [discriminate |].
  split; [left; reflexivity |].
  apply (play_starts_with_acceptance playing "g2" "carol" "dave"
           "2014-11-04" "2014-11-05" "TopLeft");
    [reflexivity | reflexivity | discriminate | left; reflexivity].
Defined.

(** ** More on the merge *)

Lemma mergeQueries_descending_weave_witness :
  descending hosted = true /\ descending invited = true /\
  exists out : list (gmap string string),
    mergeQueries (iter hosted) (iter invited) 10 = Some (Return out) /\
    descending out = true /\ weave out hosted invited /\
    (length out <= length hosted + length invited)%nat.
Proof.
  split; [vm_compute; reflexivity |]. split; [vm_compute; reflexivity |].
  apply (mergeQueries_descending_weave hosted invited 10);
    vm_compute; reflexivity.
Defined.

Lemma drain_take (limit : Z) (rest games : list (gmap string string)) :
  len games <= limit ->
  drain limit rest None games
    = Return (games ++ take (Z.to_nat (limit - len games)) rest)%list.
Proof.
  revert games. induction rest as [| r rest IH]; intros games Hlen; simpl.
  - rewrite take_nil, app_nil_r. reflexivity.
  - destruct (len games =? limit) eqn:Heq.
    + apply Z.eqb_eq in Heq. rewrite Heq, Z.sub_diag. simpl.
      rewrite app_nil_r. reflexivity.
    + apply Z.eqb_neq in Heq.
      rewrite IH by (rewrite len_app; lia). rewrite len_app.
      replace (Z.to_nat (limit - len games))
        with (S (Z.to_nat (limit - (len games + 1)))) by lia.
      simpl. rewrite <- app_assoc. reflexivity.
Qed.

(** X12: with one stream empty the merge is a cut of the other, but not
    the same cut on both sides.  An empty first stream gives the first
    [limit] games of the second, none for a limit of zero or less.  An
    empty second stream gives the first [limit] games of the first, except
    for limit zero, where all its games are returned. *)
Theorem mergeQueries_one_stream (games : list (gmap string string))
  (limit : Z) :
  mergeQueries (iter []) (iter games) limit
    = Some (Return (take (Z.to_nat limit) games)) /\
  mergeQueries (iter games) (iter []) limit
    = Some (Return (if limit =? 0 then games
                    else take (Z.to_nat limit) games)).
Proof.
  unfold mergeQueries. cbn [mergeLoop]. change (len []) with 0.
  destruct (0 <=? limit) eqn:Hlimit.
  - apply Z.leb_le in Hlimit. split.
    + cbn [refill next iter rows broken default from_option].
      rewrite drain_take by (change (len []) with 0; lia).
      change (len []) with 0. rewrite Z.sub_0_r. reflexivity.
    + destruct games as [| g games].
      * cbn [refill next iter rows broken default from_option drain].
        destruct (limit =? 0); [reflexivity |].
        rewrite take_nil. reflexivity.
      * cbn [refill next iter rows broken default from_option].
        destruct (limit =? 0) eqn:Hzero.
        -- apply Z.eqb_eq in Hzero. subst limit.
           rewrite drain_past_limit by (unfold len; simpl; lia).
           reflexivity.
        -- apply Z.eqb_neq in Hzero.
           rewrite drain_take by (unfold len; simpl; lia).
           replace (Z.to_nat limit)
             with (S (Z.to_nat (limit - len ([] ++ [g]))))
             by (unfold len; simpl; lia).
           reflexivity.
  - apply Z.leb_gt in Hlimit.
    replace (Z.to_nat limit) with 0%nat by lia.
    rewrite (proj2 (Z.eqb_neq limit 0)) by lia.
    rewrite !take_0. split; reflexivity.
Qed.

Lemma drain_at_least (limit : Z) (rest games out : list (gmap string string)) :
  drain limit rest None games = Return out ->
  Z.min limit (len games + len rest) <= len out.
Proof.
  revert games. induction rest as [| r rest IH]; intros games; simpl.
  - intros [= <-]. change (len []) with 0. lia.
  - destruct (len games =? limit) eqn:Heq.
    + apply Z.eqb_eq in Heq. intros [= <-]. lia.
    + intros Hrun. apply IH in Hrun. rewrite len_app in Hrun.
      replace (len (r :: rest)) with (len rest + 1)
        by (unfold len; simpl; lia).
      lia.
Qed.

(** The shape of the result on streams that do not fail: the games so far,
    followed by an interleaving of what the streams still hold, cut no
    shorter than the limit asks. *)
Lemma mergeLoop_shape (fuel : nat) (limit : Z) :
  forall (host opp : ResultSet) (games : list (gmap string string))
         (game_one game_two : option (gmap string string))
         (r : outcome (list (gmap string string))),
    broken host = None -> broken opp = None ->
    mergeLoop fuel limit host opp games game_one game_two = Some r ->
    exists out : list (gmap string string),
      r = Return (games ++ out)%list /\
      weave out (pending game_one host) (pending game_two opp) /\
      Z.min limit (len games + len (pending game_one host)
                   + len (pending game_two opp))
        <= len (games ++ out)%list.
Proof.
  induction fuel as [| fuel IH];
    intros host opp games game_one game_two r Hhost Hopp Hrun;
    [discriminate |].
  simpl in Hrun. destruct (len games <=? limit) eqn:Hlen.
  2:{ injection Hrun as <-. exists []. rewrite app_nil_r.
      apply Z.leb_gt in Hlen. repeat split; [constructor | lia]. }
  destruct (refill_unbroken game_one host Hhost)
    as [(Hnil & -> & Hrefill) | (g1 & host' & Hrefill & Hpend1 & Hhost')];
    rewrite Hrefill in Hrun.
  { injection Hrun as <-. rewrite Hopp, Hnil. change (len []) with 0.
    destruct game_two as [g2 |]; cbn [pending].
    - destruct (drain_prefix limit (rows opp) (games ++ [g2])%list)
        as (out & tl & Hdrain & Hrows).
      pose proof (drain_at_least _ _ _ _ Hdrain) as Hmin.
      rewrite Hdrain. exists (g2 :: out).
      rewrite <- app_assoc in *. split; [reflexivity |]. split.
      + rewrite Hrows. apply (weave_prefix_two (g2 :: out) tl).
      + rewrite len_app in Hmin.
        replace (len (g2 :: rows opp)) with (len (rows opp) + 1)
          by (unfold len; simpl; lia).
        simpl in *. lia.
    - destruct (drain_prefix limit (rows opp) games)
        as (out & tl & Hdrain & Hrows).
      pose proof (drain_at_least _ _ _ _ Hdrain) as Hmin.
      rewrite Hdrain. exists out. split; [reflexivity |]. split.
      + rewrite Hrows. apply weave_prefix_two.
      + lia. }
  destruct (refill_unbroken game_two opp Hopp)
    as [(Hnil & -> & Hrefill2) | (g2 & opp' & Hrefill2 & Hpend2 & Hopp')];
    rewrite Hrefill2 in Hrun.
  { injection Hrun as <-. rewrite Hhost', Hnil, Hpend1.
    change (len []) with 0.
    destruct (drain_prefix limit (rows host') (games ++ [g1])%list)
      as (out & tl & Hdrain & Hrows).
    pose proof (drain_at_least _ _ _ _ Hdrain) as Hmin.
    rewrite Hdrain. exists (g1 :: out).
    rewrite <- app_assoc in *. split; [reflexivity |]. split.
    - rewrite Hrows. apply (weave_prefix_one (g1 :: out) tl).
    - rewrite len_app in Hmin.
      replace (len (g1 :: rows host')) with (len (rows host') + 1)
        by (unfold len; simpl; lia).
      simpl in *. lia. }
  rewrite Hpend1, Hpend2.
  replace (len (g1 :: rows host')) with (len (rows host') + 1)
    by (unfold len; simpl; lia).
  replace (len (g2 :: rows opp')) with (len (rows opp') + 1)
    by (unfold len; simpl; lia).
  destruct (Item_gt g1 g2).
  - destruct (IH host' opp' (games ++ [g1])%list None (Some g2) r
                Hhost' Hopp' Hrun) as (out & -> & Hweave & Hmin).
    exists (g1 :: out). rewrite <- app_assoc in *.
    split; [reflexivity |]. split; [apply weave_one; exact Hweave |].
    cbn [pending] in Hmin. rewrite len_app in Hmin.
    replace (len (g2 :: rows opp')) with (len (rows opp') + 1) in Hmin
      by (unfold len; simpl; lia).
    simpl in *. lia.
  - destruct (IH host' opp' (games ++ [g2])%list (Some g1) None r
                Hhost' Hopp' Hrun) as (out & -> & Hweave & Hmin).
    exists (g2 :: out). rewrite <- app_assoc in *.
    split; [reflexivity |]. split; [apply weave_two; exact Hweave |].
    cbn [pending] in Hmin. rewrite len_app in Hmin.
    replace (len (g1 :: rows host')) with (len (rows host') + 1) in Hmin
      by (unfold len; simpl; lia).
    simpl in *. lia.
Qed.

(** X13: the merge never falls short.  For all finite sequences and every
    limit, [mergeQueries] returns a list, never an error; the list
    interleaves a prefix of each sequence and holds at least
    min(limit, |A| + |B|) games and at most |A| + |B|. *)
Theorem mergeQueries_at_least (A B : list (gmap string string)) (limit : Z) :
  exists out : list (gmap string string),
    mergeQueries (iter A) (iter B) limit = Some (Return out) /\
    weave out A B /\
    Z.min limit (len A + len B) <= len out <= len A + len B.
Proof.
  destruct (mergeQueries_returns (iter A) (iter B) limit) as [r Hr].
  destruct (mergeLoop_shape _ limit (iter A) (iter B) [] None None r
              eq_refl eq_refl Hr) as (out & -> & Hweave & Hmin).
  exists out. split; [exact Hr |]. split; [exact Hweave |].
  cbn [pending iter rows app] in *. change (len []) with 0 in Hmin.
  apply weave_length in Hweave. unfold len in *. lia.
Qed.

Lemma weave_all (out A B : list (gmap string string)) :
  weave out A B -> length out = (length A + length B)%nat ->
  out ≡ₚ (A ++ B)%list.
Proof.
  induction 1 as [A B | g out A B Hweave IH | g out A B Hweave IH];
    simpl; intros Hlen.
  - destruct A, B; simpl in Hlen; try lia. reflexivity.
  - rewrite IH by lia. reflexivity.
  - rewrite IH by lia. apply Permutation_middle.
Qed.

(** X14: with a limit of at least |A| + |B| the merge is complete: for two
    descending sequences the result is descending and a permutation of all
    their games. *)
Theorem mergeQueries_complete (A B : list (gmap string string)) (limit : Z) :
  descending A = true -> descending B = true ->
  len A + len B <= limit ->
  exists out : list (gmap string string),
    mergeQueries (iter A) (iter B) limit = Some (Return out) /\
    descending out = true /\
    out ≡ₚ (A ++ B)%list.
Proof.
  intros HA HB Hlimit.
  destruct (mergeQueries_returns (iter A) (iter B) limit) as [r Hr].
  destruct (mergeLoop_shape _ limit (iter A) (iter B) [] None None r
              eq_refl eq_refl Hr) as (out & -> & Hweave & Hmin).
  destruct (mergeLoop_weaves _ limit (iter A) (iter B) [] None None _
              eq_refl eq_refl HA HB Hr) as (out' & Hout & _ & Hdesc).
  injection Hout as <-.
  exists out. split; [exact Hr |]. split; [exact Hdesc |].
  cbn [pending iter rows app] in *. change (len []) with 0 in Hmin.
  apply weave_all; [exact Hweave |].
  apply weave_length in Hweave. unfold len in *. lia.
Qed.

Lemma mergeQueries_complete_witness :
  descending hosted = true /\ descending invited = true /\
  len hosted + len invited <= 12 /\
  exists out : list (gmap string string),
    mergeQueries (iter hosted) (iter invited) 12 = Some (Return out) /\
    descending out = true /\
    out ≡ₚ (hosted ++ invited)%list.
Proof.
  split; [vm_compute; reflexivity |]. split; [vm_compute; reflexivity |].
  split; [vm_compute; discriminate |].
  apply (mergeQueries_complete hosted invited 12);
    [vm_compute; reflexivity | vm_compute; reflexivity
    | vm_compute; discriminate].
Defined.

(** ** Listing games *)

Lemma collectInvites_rows (n : nat) :
  forall (l invites : list (gmap string string)),
    collectInvites n {| rows := l; broken := None |} invites
      = Return (Some (invites ++ take n l)%list).
Proof.
  induction n as [| n IH]; intros l invites; simpl.
  - rewrite app_nil_r. reflexivity.
  - destruct l as [| g l]; cbn [next rows broken default from_option].
    + rewrite app_nil_r. reflexivity.
    + rewrite IH, <- app_assoc. reflexivity.
Qed.

(** X15: what [getGameInvites] answers for a user.  It sends one query on
    the opponent index for the status prefix "PENDING_".  On a reachable
    store the answer is the first ten rows of the query, in their order.
    When the store fails, a [ValidationException] gives the empty list, a
    [JSONResponseError] of type ResourceNotFoundException gives [None],
    and every other failure is raised; the table is never changed. *)
Theorem getGameInvites_result
  (select : gmap string (gmap string string) -> string -> string -> string ->
            Z -> list (gmap string string))
  (cm : ConnectionManager) (user : string) :
  getGameInvites select cm (Some user) =
    (match failure cm with
     | None =>
         Return (Some (take 10 (select (Games cm)
                                  "OpponentId-StatusDate-index" user
                                  "PENDING_" 10)))
     | Some StopIteration | Some ValidationException => Return (Some [])
     | Some (JSONResponseError type__) =>
         if bool_decide (type__ = Some ResourceNotFound) then Return None
         else Raise (JSONResponseError type__)
     | Some e => Raise e
     end,
     sent (Query "OpponentId-StatusDate-index" user "PENDING_") cm).
Proof.
  unfold getGameInvites, query. cbv zeta. cbn [failure Games sent].
  destruct (failure cm) as [e |].
  - destruct e; reflexivity.
  - unfold iter. rewrite collectInvites_rows. reflexivity.
Qed.

(** X16: on a reachable store whose two index queries answer descending
    rows, [getGamesWithStatus] sends the query on the host index and then
    the one on the opponent index, leaves the table alone, and returns a
    descending list that interleaves a prefix of each answer and holds at
    least min(10, all rows) games. *)
Theorem getGamesWithStatus_reachable
  (select : gmap string (gmap string string) -> string -> string -> string ->
            Z -> list (gmap string string))
  (cm : ConnectionManager) (user status : string) :
  failure cm = None ->
  descending (select (Games cm) "HostId-StatusDate-index" user status 10)
    = true ->
  descending (select (Games cm) "OpponentId-StatusDate-index" user status 10)
    = true ->
  exists out : list (gmap string string),
    getGamesWithStatus select cm (Some user) status =
      (Some (Return out),
       sent (Query "OpponentId-StatusDate-index" user status)
         (sent (Query "HostId-StatusDate-index" user status) cm)) /\
    descending out = true /\
    weave out
      (select (Games cm) "HostId-StatusDate-index" user status 10)
      (select (Games cm) "OpponentId-StatusDate-index" user status 10) /\
    Z.min 10
      (len (select (Games cm) "HostId-StatusDate-index" user status 10)
       + len (select (Games cm) "OpponentId-StatusDate-index" user status 10))
      <= len out.
Proof.
  intros Hup Hhost Hopp.
  unfold getGamesWithStatus, query. cbv zeta. cbn [failure Games sent].
  rewrite Hup. cbn [failure Games sent]. rewrite Hup.
  set (A := select (Games cm) "HostId-StatusDate-index" user status 10) in *.
  set (B := select (Games cm) "OpponentId-StatusDate-index" user status 10)
    in *.
  destruct (mergeQueries_returns (iter A) (iter B) 10) as [r Hr].
  destruct (mergeLoop_shape _ 10 (iter A) (iter B) [] None None r
              eq_refl eq_refl Hr) as (out & -> & Hweave & Hmin).
  destruct (mergeLoop_weaves _ 10 (iter A) (iter B) [] None None _
              eq_refl eq_refl Hhost Hopp Hr) as (out' & Hout & _ & Hdesc).
  injection Hout as <-.
  exists out. rewrite Hr.
  split; [reflexivity |]. split; [exact Hdesc |]. split; [exact Hweave |].
  cbn [pending iter rows app] in Hmin. change (len []) with 0 in Hmin.
  lia.
Qed.

Lemma getGamesWithStatus_reachable_witness :
  failure empty_table = None /\
  descending (sample_select (Games empty_table) "HostId-StatusDate-index"
                "alice" "FINISHED_" 10) = true /\
  descending (sample_select (Games empty_table) "OpponentId-StatusDate-index"
                "alice" "FINISHED_" 10) = true /\
  exists out : list (gmap string string),
    getGamesWithStatus sample_select empty_table (Some "alice") "FINISHED_" =
      (Some (Return out),
       sent (Query "OpponentId-StatusDate-index" "alice" "FINISHED_")
         (sent (Query "HostId-StatusDate-index" "alice" "FINISHED_")
            empty_table)) /\
    descending out = true /\
    weave out
      (sample_select (Games empty_table) "HostId-StatusDate-index" "alice"
         "FINISHED_" 10)
      (sample_select (Games empty_table) "OpponentId-StatusDate-index"
         "alice" "FINISHED_" 10) /\
    Z.min 10
      (len (sample_select (Games empty_table) "HostId-StatusDate-index"
              "alice" "FINISHED_" 10)
       + len (sample_select (Games empty_table) "OpponentId-StatusDate-index"
                "alice" "FINISHED_" 10))
      <= len out.
Proof.
  split; [reflexivity |]. split; [vm_compute; reflexivity |].
  split; [vm_compute; reflexivity |].
  apply (getGamesWithStatus_reachable sample_select empty_table "alice"
           "FINISHED_");
    [reflexivity | vm_compute; reflexivity | vm_compute; reflexivity].
Defined.

(** X17: [getGamesWithStatus] hides no failure of the store.  When the
    store fails with [e], the call for a user raises [e], a
    [ValidationException] and a ResourceNotFoundException included, which
    [getGameInvites] turns into an empty list and into [None]; the table
    is not changed. *)
Theorem getGamesWithStatus_unreachable
  (select : gmap string (gmap string string) -> string -> string -> string ->
            Z -> list (gmap string string))
  (cm : ConnectionManager) (user status : string) (e : exn) :
  failure cm = Some e -> e <> StopIteration ->
  (getGamesWithStatus select cm (Some user) status).1 = Some (Raise e) /\
  Games (getGamesWithStatus select cm (Some user) status).2 = Games cm.
Proof.
  intros Hdown He.
  unfold getGamesWithStatus, query. cbv zeta. cbn [failure Games sent].
  rewrite Hdown. cbn [failure Games sent]. rewrite Hdown.
  cbn [fst snd Games sent]. split; [| reflexivity].
  unfold mergeQueries. cbn [mergeLoop]. change (len []) with 0.
  change (0 <=? 10) with true.
  cbn [refill next rows broken default from_option].
  destruct e; try reflexivity. exfalso. apply He. reflexivity.
Qed.

Lemma getGamesWithStatus_unreachable_witness :
  failure unreachable = Some IOError /\ IOError <> StopIteration /\
  (getGamesWithStatus sample_select unreachable (Some "bob") "PENDING_").1
    = Some (Raise IOError) /\
  Games (getGamesWithStatus sample_select unreachable (Some "bob")
           "PENDING_").2 = Games unreachable.
Proof.
  split; [reflexivity |]. split; [discriminate |].
  apply (getGamesWithStatus_unreachable sample_select unreachable "bob"
           "PENDING_" IOError); [reflexivity | discriminate].
Defined.

(** ** A whole play *)

Lemma filter_one_more (f g : string -> bool) (p : string) :
  f p = false -> g p = true ->
  forall l : list string,
    NoDup l -> In p l ->
    (forall x, In x l -> x <> p -> g x = f x) ->
    length (List.filter g l) = S (length (List.filter f l)).
Proof.
  intros Hf Hg. induction l as [| x l IH]; intros Hnd Hin Hother;
    [destruct Hin |].
  apply NoDup_cons in Hnd as [Hx Hnd]. simpl.
  destruct (decide (x = p)) as [-> | Hne].
  - rewrite Hf, Hg. simpl. f_equal. f_equal.
    apply List.filter_ext_in. intros y Hy. apply Hother; [right; exact Hy |].
    intros ->. apply Hx, list_elem_of_In. exact Hy.
  - destruct Hin as [Hin | Hin]; [congruence |].
    rewrite (Hother x (or_introl eq_refl) Hne).
    assert (Hrest : length (List.filter g l) = S (length (List.filter f l))).
    { apply IH; [exact Hnd | exact Hin |].
      intros y Hy. apply Hother. right. exact Hy. }
    destruct (f x); simpl; rewrite Hrest; reflexivity.
Qed.

Lemma marked_same (old new : gmap string string) :
  (forall square, In square squares -> new !! square = old !! square) ->
  marked new = marked old.
Proof.
  intros Hsame. unfold marked. f_equal.
  apply List.filter_ext_in. intros square Hsq. rewrite (Hsame square Hsq).
  reflexivity.
Qed.

Lemma marked_bound (record : gmap string string) : (marked record <= 9)%nat.
Proof.
  unfold marked.
  apply (Nat.le_trans _ (length squares)); [apply List.filter_length_le |].
  reflexivity.
Qed.

Lemma createNewGame_play_state (cm cm' : ConnectionManager)
  (gameId creator invitee now : string) :
  createNewGame cm gameId creator invitee now = (Return true, cm') ->
  play_state gameId creator invitee 0 cm'.
Proof.
  intros Hcreate.
  assert (Hfresh : failure cm = None /\ Games cm !! gameId = None).
  { unfold createNewGame, Item_save_new in Hcreate. cbv zeta in Hcreate.
    cbn [failure Games sent] in Hcreate.
    destruct (failure cm); [discriminate |].
    rewrite lookup_insert_ne, lookup_insert_ne, lookup_insert_ne,
      lookup_insert_ne, lookup_insert_ne, lookup_insert_eq in Hcreate
      by discriminate.
    destruct (Games cm !! gameId); [discriminate |]. split; reflexivity. }
  destruct Hfresh as [Hup Hnew].
  destruct (createNewGame_run cm gameId creator invitee now Hup Hnew)
    as (record & Hrun & Hgid & Hhost & _ & Houser & Hturn & Hopp & _ & Hfree).
  rewrite Hrun in Hcreate. injection Hcreate as <-.
  exists record. cbn [Games with_games sent]. rewrite lookup_insert_eq.
  repeat split; try assumption.
  unfold marked.
  rewrite (List.filter_ext_in _ (fun _ => false)).
  - clear. induction squares; simpl; auto.
  - intros square Hsq. rewrite (Hfree square Hsq).
    apply bool_decide_eq_false_2. intros [x Hx]. discriminate.
Qed.

Lemma played_state (gameId creator invitee : string) (n : nat)
  (cm cm' : ConnectionManager) :
  played gameId n cm cm' ->
  play_state gameId creator invitee 0 cm ->
  play_state gameId creator invitee n cm'.
Proof.
  intros Hplayed Hstart.
  induction Hplayed as
    [ cm
    | n cm cm1 cm2 game now _ IH Hkey Haccept
    | n cm cm1 cm2 cm3 item position current_player _ IH Hget Hpos Hmove ].
  - exact Hstart.
  - destruct (IH Hstart)
      as (record & Hrec & Hgid & Hhost & Hopp & Houser & Hturn & Hmarked).
    destruct (acceptGameInvite_True cm1 cm2 game now gameId Hkey Haccept)
      as (old & Hold & _ & Hgames).
    rewrite Hrec in Hold. injection Hold as <-.
    exists (<["StatusDate" := "IN_PROGRESS_" +:+ now]> record).
    rewrite Hgames, lookup_insert_eq.
    rewrite !lookup_insert_ne by discriminate.
    repeat split; try assumption.
    rewrite <- Hmarked. apply marked_same. intros square Hsq.
    destruct (squares_names square Hsq) as (_ & Hstatus & _).
    apply lookup_insert_ne. congruence.
  - destruct (IH Hstart)
      as (record & Hrec & Hgid & Hhost & Hopp & Houser & Hturn & Hmarked).
    destruct (getGame_Some cm1 cm2 gameId item Hget) as [Hitem Hsame].
    rewrite Hrec in Hitem. injection Hitem as <-.
    destruct (updateBoardAndTurn_True cm2 cm3 record position current_player
                Hpos Hmove)
      as (gameId' & next & old & Hkey & Hnext & Hold & Hguard & ->).
    rewrite Hgid in Hkey. injection Hkey as <-.
    rewrite Hsame, Hrec in Hold. injection Hold as <-.
    destruct Hguard as (_ & Hcurrent & Hfree).
    destruct (squares_names position Hpos)
      as (Hn0 & _ & Hn1 & Hn2 & Hn3 & Hn4).
    eexists. cbn [Games with_games]. rewrite lookup_insert_eq.
    split; [reflexivity |].
    rewrite !put_all_move.
    rewrite !(bool_decide_eq_false_2 (_ = "Turn")) by discriminate.
    rewrite !(bool_decide_eq_false_2 (_ = position)) by congruence.
    rewrite bool_decide_eq_true_2 by reflexivity.
    split; [exact Hgid |]. split; [exact Hhost |]. split; [exact Hopp |].
    split; [exact Houser |]. split.
    + f_equal. unfold next_of in Hnext. rewrite Hhost, Hopp in Hnext.
      rewrite Hturn in Hcurrent. injection Hcurrent as <-.
      rewrite Nat.even_succ, <- Nat.negb_even.
      destruct (Nat.even n); simpl.
      * case_bool_decide as Hsame'; simpl in Hnext; congruence.
      * rewrite bool_decide_eq_true_2 in Hnext by reflexivity. congruence.
    + rewrite <- Hmarked. unfold marked.
      apply (filter_one_more _ _ position);
        [| | exact NoDup_squares | exact Hpos |].
      * apply bool_decide_eq_false_2. rewrite Hfree. intros [x Hx].
        discriminate.
      * apply bool_decide_eq_true_2. rewrite put_all_move.
        rewrite bool_decide_eq_false_2 by assumption.
        rewrite bool_decide_eq_true_2 by reflexivity. eauto.
      * intros square Hsq Hne. rewrite put_all_move.
        destruct (squares_names square Hsq) as (Hs0 & _).
        rewrite (bool_decide_eq_false_2 (square = "Turn")) by assumption.
        rewrite (bool_decide_eq_false_2 (square = position)) by assumption.
        reflexivity.
Qed.

(** X18: who moves, and with which mark.  In a game made by
    [createNewGame], the move that succeeds after [n] moves, on the record
    just read, is made by the invitee when [n] is even and by the creator
    when [n] is odd, and it writes "O" for the creator and "X" for anyone
    else. *)
Theorem moves_by_role (cm cm0 cm1 cm2 cm3 : ConnectionManager)
  (gameId creator invitee now position player : string) (n : nat)
  (item : gmap string string) :
  createNewGame cm gameId creator invitee now = (Return true, cm0) ->
  played gameId n cm0 cm1 ->
  getGame cm1 gameId = (Return (Some item), cm2) ->
  In position squares ->
  updateBoardAndTurn cm2 item position player = (Return true, cm3) ->
  player = (if Nat.even n then invitee else creator) /\
  exists new : gmap string string,
    Games cm3 !! gameId = Some new /\
    new !! position = Some (if bool_decide (player = creator)
                            then "O" else "X").
Proof.
  intros Hcreate Hplayed Hget Hpos Hmove.
  destruct (played_state gameId creator invitee n cm0 cm1 Hplayed
              (createNewGame_play_state cm cm0 gameId creator invitee now
                 Hcreate))
    as (record & Hrec & Hgid & Hhost & Hopp & Houser & Hturn & _).
  destruct (getGame_Some cm1 cm2 gameId item Hget) as [Hitem Hsame].
  rewrite Hrec in Hitem. injection Hitem as <-.
  destruct (updateBoardAndTurn_True cm2 cm3 record position player Hpos Hmove)
    as (gameId' & next & old & Hkey & _ & Hold & Hguard & ->).
  rewrite Hgid in Hkey. injection Hkey as <-.
  rewrite Hsame, Hrec in Hold. injection Hold as <-.
  destruct Hguard as (_ & Hcurrent & _).
  destruct (squares_names position Hpos) as (Hn0 & _).
  rewrite Hturn in Hcurrent. injection Hcurrent as Hplayer.
  split; [symmetry; exact Hplayer |].
  eexists. cbn [Games with_games]. rewrite lookup_insert_eq.
  split; [reflexivity |].
  rewrite put_all_move.
  rewrite bool_decide_eq_false_2 by assumption.
  rewrite bool_decide_eq_true_2 by reflexivity.
  unfold mark_of. rewrite Houser. f_equal.
  repeat case_bool_decide; congruence.
Qed.

Lemma played_accepted : played "g1" 0 created accepted.
Proof.
  apply (played_accept "g1" 0 created created accepted pending_game
           "2014-11-05");
    [apply played_none | reflexivity | reflexivity].
Defined.

Lemma moves_by_role_witness :
  createNewGame empty_table "g1" "alice" "bob" "2014-11-04"
    = (Return true, created) /\
  played "g1" 0 created accepted /\
  getGame accepted "g1"
    = (Return (Some in_progress_game), (getGame accepted "g1").2) /\
  In "MiddleMiddle" squares /\
  updateBoardAndTurn (getGame accepted "g1").2 in_progress_game
    "MiddleMiddle" "bob" = (Return true, moved_once) /\
  "bob" = (if Nat.even 0 then "bob" else "alice") /\
  exists new : gmap string string,
    Games moved_once !! "g1" = Some new /\
    new !! "MiddleMiddle" = Some (if bool_decide ("bob" = "alice")
                                  then "O" else "X").
Proof.
  split; [reflexivity |]. split; [exact played_accepted |].
  split; [reflexivity |]. split; [do 4 right; left; reflexivity |].
  split; [reflexivity |].
  apply (moves_by_role empty_table created accepted (getGame accepted "g1").2
           moved_once "g1" "alice" "bob" "2014-11-04" "MiddleMiddle" "bob" 0
           in_progress_game);
    [reflexivity | exact played_accepted | reflexivity
    | do 4 right; left; reflexivity | reflexivity].
Defined.

(** X19: a play takes at most nine moves.  In a game made by
    [createNewGame], after [n] successful moves exactly [n] of the nine
    squares of the stored record are set, so [n] is at most 9. *)
Theorem at_most_nine_moves (cm cm0 cm' : ConnectionManager)
  (gameId creator invitee now : string) (n : nat) :
  createNewGame cm gameId creator invitee now = (Return true, cm0) ->
  played gameId n cm0 cm' ->
  (n <= 9)%nat /\
  exists record : gmap string string,
    Games cm' !! gameId = Some record /\ marked record = n.
Proof.
  intros Hcreate Hplayed.
  destruct (played_state gameId creator invitee n cm0 cm' Hplayed
              (createNewGame_play_state cm cm0 gameId creator invitee now
                 Hcreate))
    as (record & Hrec & _ & _ & _ & _ & _ & Hmarked).
  split; [rewrite <- Hmarked; apply marked_bound |].
  exists record. split; assumption.
Qed.

Lemma at_most_nine_moves_witness :
  createNewGame empty_table "g1" "alice" "bob" "2014-11-04"
    = (Return true, created) /\
  played "g1" 1 created moved_once /\
  (1 <= 9)%nat /\
  exists record : gmap string string,
    Games moved_once !! "g1" = Some record /\ marked record = 1%nat.
Proof.
  split; [reflexivity |]. split; [exact played_once |].
  apply (at_most_nine_moves empty_table created moved_once "g1" "alice" "bob"
           "2014-11-04" 1); [reflexivity | exact played_once].
Defined.
